(** * Option and Result containers: a heap model of the TypeScript classes

    The two classes [Option<T>] and [Result<T, E>] are JavaScript objects
    with identity: several methods return [this] or [other] themselves, and
    five methods of [Option] assign to [this.internal].  The model therefore
    keeps every instance in a store and passes references around; a method is
    a computation over the store that either returns or throws.

    The repository holds two versions of the [Option] class.  The model
    follows the complete one, the one that imports [Result]; the earlier one
    leaves [okOr], [okOrElse] and [transpose] empty and has the same text for
    the methods the two share. *)

From Stdlib Require Import ZArith DecimalString.
From stdpp Require Import base list strings.

Local Open Scope string_scope.
Local Open Scope list_scope.

Set Warnings "-register-all".

(** ** Values *)

(** A reference to an object of the store. *)
Abbreviation loc := nat (only parsing).

(** [Number.isSafeInteger]: the integers from [-(2^53 - 1)] to [2^53 - 1].
    Each of them is a JavaScript number, and each is printed in plain decimal
    notation. *)
Definition isSafeInteger (n : Z) : bool := (Z.abs n <=? 9007199254740991)%Z.

(** The numbers of the model are the safe integers; fractions, [NaN], the
    infinities and the integers beyond the safe range are left out. *)
Record Number : Type := { integer : Z; integer_safe : isSafeInteger integer = true }.

(** The payloads a container may hold.  An array is kept by value, since the
    library neither writes to an array nor compares two of them. *)
Inductive val : Type :=
  | VUndefined
  | VNull
  | VBool (b : bool)
  | VNumber (n : Number)
  | VStr (s : string)
  | VArr (items : list val)
  | VRef (l : loc).

(** A number literal; it is accepted only when the integer is a safe one. *)
Notation "'VNum' n" :=
  (VNumber {| integer := n; integer_safe := eq_refl |})
  (at level 10, n at level 9, only parsing).

(** [type OptionInit<T> = { type: OptionType.None } | { type: OptionType.Some; value: T }] *)
Inductive OptionInit : Type :=
  | OptionNone
  | OptionSome (value : val).

(** [type ResultInit<T, E> = { type: ResultType.Err; error: E } | { type: ResultType.Ok; value: T }] *)
Inductive ResultInit : Type :=
  | ResultErr (error : val)
  | ResultOk (value : val).

(** A generator made by [intoIter] has not run yet (it still has to look at
    the container it was made from), is suspended at its [yield], or is
    finished. *)
Inductive GeneratorState : Type :=
  | OptionIterStart (this : loc)
  | ResultIterStart (this : loc)
  | IterYielded
  | IterDone.

(** The objects of the store.  An instance owns its [internal] record: the
    constructors copy their argument ([this.internal = { ...init }]) and no
    method hands the record out, so the record is stored in the instance. *)
Inductive object : Type :=
  | OptionObj (internal : OptionInit)
  | ResultObj (internal : ResultInit)
  | GeneratorObj (state : GeneratorState).

Abbreviation heap := (list object) (only parsing).

(** ** Computations *)

Inductive exn : Type :=
  | Error (message : string)
  | TypeError (message : string).

Inductive completion (A : Type) : Type :=
  | Normal (a : A)
  | Throw (e : exn).
Arguments Normal {A} a.
Arguments Throw {A} e.

Definition M (A : Type) : Type := heap -> completion A * heap.

Definition ret {A} (a : A) : M A := fun h => (Normal a, h).

Definition bind {A B} (m : M A) (k : A -> M B) : M B :=
  fun h =>
    match m h with
    | (Normal a, h') => k a h'
    | (Throw e, h') => (Throw e, h')
    end.

Definition throw {A} (e : exn) : M A := fun h => (Throw e, h).

Declare Scope js_scope.
Delimit Scope js_scope with js.
Notation "x <- m ;; k" := (bind m (fun x => k))
  (at level 100, m at next level, right associativity) : js_scope.
Notation "m ;;; k" := (bind m (fun _ => k))
  (at level 100, right associativity) : js_scope.
Local Open Scope js_scope.

(** [new C(...)]: the new object gets the next free reference. *)
Definition alloc (o : object) : M loc :=
  fun h => (Normal (length h), h ++ [o]).

(** Reading [this.internal] of an [Option].  A receiver that is no [Option]
    has no such method; the call is a [TypeError]. *)
Definition Option_internal (this : loc) : M OptionInit :=
  fun h =>
    match h !! this with
    | Some (OptionObj i) => (Normal i, h)
    | _ => (Throw (TypeError "not an Option"), h)
    end.

Definition Result_internal (this : loc) : M ResultInit :=
  fun h =>
    match h !! this with
    | Some (ResultObj i) => (Normal i, h)
    | _ => (Throw (TypeError "not a Result"), h)
    end.

(** [this.internal = init] *)
Definition Option_set_internal (this : loc) (init : OptionInit) : M unit :=
  fun h => (Normal tt, <[this := OptionObj init]> h).

(** [value instanceof Option], giving the instance when it is one. *)
Definition instanceof_Option (v : val) : M (option loc) :=
  fun h =>
    match v with
    | VRef l =>
        match h !! l with
        | Some (OptionObj _) => (Normal (Some l), h)
        | _ => (Normal None, h)
        end
    | _ => (Normal None, h)
    end.

Definition instanceof_Result (v : val) : M (option loc) :=
  fun h =>
    match v with
    | VRef l =>
        match h !! l with
        | Some (ResultObj _) => (Normal (Some l), h)
        | _ => (Normal None, h)
        end
    | _ => (Normal None, h)
    end.

(** ** Template literals: [`${v}`] *)

(** [Number::toString] on a safe integer: its decimal digits, after a minus
    sign when it is negative. *)
Definition number_to_string (n : Number) : string :=
  NilZero.string_of_int (Z.to_int (integer n)).

(** The elements of an array are joined with commas ([Array.prototype.join]);
    [undefined] and [null] elements give the empty string.  An instance of
    one of the two classes prints as a plain object. *)
Fixpoint to_string (h : heap) (v : val) {struct v} : string :=
  match v with
  | VUndefined => "undefined"
  | VNull => "null"
  | VBool true => "true"
  | VBool false => "false"
  | VNumber n => number_to_string n
  | VStr s => s
  | VArr items =>
      (fix join (l : list val) : string :=
         match l with
         | [] => ""
         | x :: rest =>
             let element :=
               match x with
               | VUndefined | VNull => ""
               | _ => to_string h x
               end in
             match rest with
             | [] => element
             | _ :: _ => element +:+ "," +:+ join rest
             end
         end) items
  | VRef l =>
      match h !! l with
      | Some (GeneratorObj _) => "[object Generator]"
      | _ => "[object Object]"
      end
  end.

(** [`${v}`], read in the current store. *)
Definition stringify (v : val) : M string :=
  fun h => (Normal (to_string h v), h).

(** The receiver of a method call [v.m(...)]: a primitive has none of the
    methods of the two classes. *)
Definition receiver (v : val) : M loc :=
  match v with
  | VRef l => ret l
  | _ => throw (TypeError "not a function")
  end.

(** ** Constructors and queries of both classes *)

(** [new Result<T, E>(init)]: [this.internal = { ...init }] *)
Definition Result_new (init : ResultInit) : M loc := alloc (ResultObj init).

Definition Result_Ok (value : val) : M loc := Result_new (ResultOk value).

Definition Result_Err (error : val) : M loc := Result_new (ResultErr error).

(** [new Option<T>(init)]: [this.internal = { ...init }] *)
Definition Option_new (init : OptionInit) : M loc := alloc (OptionObj init).

Definition Option_None : M loc := Option_new OptionNone.

Definition Option_Some (value : val) : M loc := Option_new (OptionSome value).

Definition Result_isOk (this : loc) : M bool :=
  i <- Result_internal this;;
  ret (match i with ResultOk _ => true | ResultErr _ => false end).

Definition Result_isErr (this : loc) : M bool :=
  i <- Result_internal this;;
  ret (match i with ResultErr _ => true | ResultOk _ => false end).

Definition Option_isNone (this : loc) : M bool :=
  i <- Option_internal this;;
  ret (match i with OptionNone => true | OptionSome _ => false end).

Definition Option_isSome (this : loc) : M bool :=
  i <- Option_internal this;;
  ret (match i with OptionSome _ => true | OptionNone => false end).

(** ** Extracting the contained value *)

Definition Result_expect (this : loc) (message : string) : M val :=
  i <- Result_internal this;;
  match i with
  | ResultErr error =>
      s <- stringify error;; throw (Error (message +:+ ": " +:+ s))
  | ResultOk value => ret value
  end.

Definition Result_unwrap (this : loc) : M val :=
  i <- Result_internal this;;
  match i with
  | ResultErr error => s <- stringify error;; throw (Error s)
  | ResultOk value => ret value
  end.

Definition Result_unwrapOr (this : loc) (defaultValue : val) : M val :=
  i <- Result_internal this;;
  match i with
  | ResultErr _ => ret defaultValue
  | ResultOk value => ret value
  end.

Definition Result_unwrapOrElse (this : loc) (defaultValueFunc : val -> M val) : M val :=
  i <- Result_internal this;;
  match i with
  | ResultErr error => defaultValueFunc error
  | ResultOk value => ret value
  end.

Definition Result_unwrapOrDefault (this : loc) : M val :=
  throw (Error "Not implemented: use either `unwrapOr` or `unwrapOrElse` instead.").

Definition Result_expectErr (this : loc) (message : string) : M val :=
  i <- Result_internal this;;
  match i with
  | ResultOk value =>
      s <- stringify value;; throw (Error (message +:+ ": " +:+ s))
  | ResultErr error => ret error
  end.

Definition Result_unwrapErr (this : loc) : M val :=
  i <- Result_internal this;;
  match i with
  | ResultOk value => s <- stringify value;; throw (Error s)
  | ResultErr error => ret error
  end.

Definition Option_expect (this : loc) (message : string) : M val :=
  i <- Option_internal this;;
  match i with
  | OptionNone => throw (Error message)
  | OptionSome value => ret value
  end.

Definition Option_unwrap (this : loc) : M val :=
  i <- Option_internal this;;
  match i with
  | OptionNone => throw (Error "Called `Option.unwrap()` on a `None` value.")
  | OptionSome value => ret value
  end.

Definition Option_unwrapOr (this : loc) (defaultValue : val) : M val :=
  i <- Option_internal this;;
  match i with
  | OptionNone => ret defaultValue
  | OptionSome value => ret value
  end.

Definition Option_unwrapOrElse (this : loc) (defaultValueFunc : M val) : M val :=
  i <- Option_internal this;;
  match i with
  | OptionNone => defaultValueFunc
  | OptionSome value => ret value
  end.

Definition Option_unwrapOrDefault (this : loc) : M val :=
  throw (Error "Not implemented: use either `unwrapOr` or `unwrapOrElse` instead.").

(** ** Result: transforming contained values *)

Definition Result_err (this : loc) : M loc :=
  i <- Result_internal this;;
  match i with
  | ResultErr error => Option_Some error
  | ResultOk _ => Option_None
  end.

Definition Result_ok (this : loc) : M loc :=
  i <- Result_internal this;;
  match i with
  | ResultErr _ => Option_None
  | ResultOk value => Option_Some value
  end.

Definition Result_transpose (this : loc) : M loc :=
  i <- Result_internal this;;
  match i with
  | ResultErr error =>
      r <- Result_new (ResultErr error);; Option_Some (VRef r)
  | ResultOk value =>
      o <- instanceof_Option value;;
      match o with
      | Some inner =>
          isNone <- Option_isNone inner;;
          if isNone : bool then Option_None
          else (v <- Option_unwrap inner;; Option_Some v)
      | None => throw (Error "Called `transpose` on a invalid `Ok` value.")
      end
  end.

Definition Result_map (this : loc) (valueMapperFunc : val -> M val) : M loc :=
  i <- Result_internal this;;
  match i with
  | ResultErr error => Result_new (ResultErr error)
  | ResultOk value => v <- valueMapperFunc value;; Result_new (ResultOk v)
  end.

Definition Result_mapErr (this : loc) (errorMapperFunc : val -> M val) : M loc :=
  i <- Result_internal this;;
  match i with
  | ResultOk value => Result_new (ResultOk value)
  | ResultErr error => e <- errorMapperFunc error;; Result_new (ResultErr e)
  end.

Definition Result_mapOr (this : loc) (defaultValue : val)
    (valueMapperFunc : val -> M val) : M val :=
  i <- Result_internal this;;
  match i with
  | ResultErr _ => ret defaultValue
  | ResultOk value => valueMapperFunc value
  end.

Definition Result_mapOrElse (this : loc) (defaultValueFunc : val -> M val)
    (valueMapperFunc : val -> M val) : M val :=
  i <- Result_internal this;;
  match i with
  | ResultErr error => defaultValueFunc error
  | ResultOk value => valueMapperFunc value
  end.

(** ** Result: boolean operators *)

Definition Result_and (this other : loc) : M loc :=
  i <- Result_internal this;;
  match i with
  | ResultErr _ => ret this
  | ResultOk _ => ret other
  end.

Definition Result_or (this other : loc) : M loc :=
  i <- Result_internal this;;
  match i with
  | ResultOk _ => ret this
  | ResultErr _ => ret other
  end.

Definition Result_andThen (this : loc) (valueConverterFunc : val -> M loc) : M loc :=
  i <- Result_internal this;;
  match i with
  | ResultErr _ => ret this
  | ResultOk value => valueConverterFunc value
  end.

Definition Result_orElse (this : loc) (errorConverterFunc : val -> M loc) : M loc :=
  i <- Result_internal this;;
  match i with
  | ResultOk _ => ret this
  | ResultErr error => errorConverterFunc error
  end.

(** ** Option: transforming contained values *)

Definition Option_okOr (this : loc) (error : val) : M loc :=
  i <- Option_internal this;;
  match i with
  | OptionNone => Result_Err error
  | OptionSome value => Result_Ok value
  end.

Definition Option_okOrElse (this : loc) (errorFunc : M val) : M loc :=
  i <- Option_internal this;;
  match i with
  | OptionNone => e <- errorFunc;; Result_Err e
  | OptionSome value => Result_Ok value
  end.

Definition Option_transpose (this : loc) : M loc :=
  i <- Option_internal this;;
  match i with
  | OptionNone =>
      o <- Option_new OptionNone;; Result_Ok (VRef o)
  | OptionSome value =>
      r <- instanceof_Result value;;
      match r with
      | Some inner =>
          isErr <- Result_isErr inner;;
          if isErr : bool then (e <- Result_unwrapErr inner;; Result_Err e)
          else (v <- Result_unwrap inner;; Result_Ok v)
      | None => throw (Error "Called `transpose` on a invalid `Some` value.")
      end
  end.

(** The record is read again after the predicate has run
    ([const init = { ...this.internal }]). *)
Definition Option_filter (this : loc) (predicate : val -> M bool) : M loc :=
  i <- Option_internal this;;
  match i with
  | OptionSome value =>
      keep <- predicate value;;
      if keep : bool then (init <- Option_internal this;; Option_new init)
      else Option_new OptionNone
  | OptionNone => Option_new OptionNone
  end.

Definition Option_flatten (this : loc) : M loc :=
  i <- Option_internal this;;
  match i with
  | OptionNone => Option_new OptionNone
  | OptionSome value =>
      o <- instanceof_Option value;;
      match o with
      | Some inner =>
          j <- Option_internal inner;;
          match j with
          | OptionNone => Option_new OptionNone
          | OptionSome _ => v <- Option_unwrap inner;; Option_new (OptionSome v)
          end
      | None => throw (Error "Called `flatten` on a non-nested `Some` value.")
      end
  end.

Definition Option_map (this : loc) (valueMapperFunc : val -> M val) : M loc :=
  i <- Option_internal this;;
  match i with
  | OptionNone => Option_new OptionNone
  | OptionSome value => v <- valueMapperFunc value;; Option_new (OptionSome v)
  end.

Definition Option_mapOr (this : loc) (defaultValue : val)
    (valueMapperFunc : val -> M val) : M val :=
  i <- Option_internal this;;
  match i with
  | OptionNone => ret defaultValue
  | OptionSome value => valueMapperFunc value
  end.

Definition Option_mapOrElse (this : loc) (defaultValueFunc : M val)
    (valueMapperFunc : val -> M val) : M val :=
  i <- Option_internal this;;
  match i with
  | OptionNone => defaultValueFunc
  | OptionSome value => valueMapperFunc value
  end.

Definition Option_zip (this other : loc) : M loc :=
  i <- Option_internal this;;
  match i with
  | OptionNone => Option_new OptionNone
  | OptionSome value =>
      j <- Option_internal other;;
      match j with
      | OptionNone => Option_new OptionNone
      | OptionSome _ =>
          otherValue <- Option_unwrap other;;
          Option_new (OptionSome (VArr [value; otherValue]))
      end
  end.

Definition Option_zipWith (this other : loc)
    (valueZipperFunc : val -> val -> M val) : M loc :=
  i <- Option_internal this;;
  match i with
  | OptionNone => Option_new OptionNone
  | OptionSome value =>
      j <- Option_internal other;;
      match j with
      | OptionNone => Option_new OptionNone
      | OptionSome _ =>
          otherValue <- Option_unwrap other;;
          v <- valueZipperFunc value otherValue;;
          Option_new (OptionSome v)
      end
  end.

(** ** Option: boolean operators *)

Definition Option_and (this other : loc) : M loc :=
  i <- Option_internal this;;
  match i with
  | OptionNone => ret this
  | OptionSome _ => ret other
  end.

Definition Option_or (this other : loc) : M loc :=
  i <- Option_internal this;;
  match i with
  | OptionNone => ret other
  | OptionSome _ => ret this
  end.

Definition Option_xor (this other : loc) : M loc :=
  i <- Option_internal this;;
  j <- Option_internal other;;
  match i, j with
  | OptionSome _, OptionNone => ret this
  | OptionNone, OptionSome _ => ret other
  | _, _ => ret this
  end.

Definition Option_andThen (this : loc) (valueConverterFunc : val -> M loc) : M loc :=
  i <- Option_internal this;;
  match i with
  | OptionNone => ret this
  | OptionSome value => valueConverterFunc value
  end.

Definition Option_orElse (this : loc) (getterFunc : M loc) : M loc :=
  i <- Option_internal this;;
  match i with
  | OptionNone => getterFunc
  | OptionSome _ => ret this
  end.

(** ** Modifying an Option in place *)

(** [this.internal.value]; a record without the field reads as [undefined]. *)
Definition Option_value (this : loc) : M val :=
  i <- Option_internal this;;
  ret (match i with OptionSome value => value | OptionNone => VUndefined end).

(** On a [Some] the field is assigned ([this.internal.value = value]): the
    tag stays [Some] and the record holds the new value. *)
Definition Option_insert (this : loc) (value : val) : M val :=
  i <- Option_internal this;;
  (match i with
   | OptionNone => Option_set_internal this (OptionSome value)
   | OptionSome _ => Option_set_internal this (OptionSome value)
   end);;;
  Option_value this.

Definition Option_getOrInsert (this : loc) (value : val) : M val :=
  i <- Option_internal this;;
  (match i with
   | OptionNone => Option_set_internal this (OptionSome value)
   | OptionSome _ => ret tt
   end);;;
  Option_value this.

Definition Option_getOrInsertWith (this : loc) (insertValueFunc : M val) : M val :=
  i <- Option_internal this;;
  (match i with
   | OptionNone => v <- insertValueFunc;; Option_set_internal this (OptionSome v)
   | OptionSome _ => ret tt
   end);;;
  Option_value this.

Definition Option_getOrInsertDefault (this : loc) : M val :=
  throw (Error "Not implemented: use either `getOrInsert` or `getOrInsertWith` instead.").

Definition Option_take (this : loc) : M loc :=
  init <- Option_internal this;;
  Option_set_internal this OptionNone;;;
  Option_new init.

Definition Option_replace (this : loc) (value : val) : M loc :=
  init <- Option_internal this;;
  Option_set_internal this (OptionSome value);;;
  Option_new init.

(** ** Iterating *)

(** Calling a generator function runs none of its body. *)
Definition Option_intoIter (this : loc) : M loc :=
  alloc (GeneratorObj (OptionIterStart this)).

Definition Result_intoIter (this : loc) : M loc :=
  alloc (GeneratorObj (ResultIterStart this)).

(** [{ value, done }] *)
Record IteratorResult : Type := { value : val; done : bool }.

Definition Generator_state (g : loc) : M GeneratorState :=
  fun h =>
    match h !! g with
    | Some (GeneratorObj st) => (Normal st, h)
    | _ => (Throw (TypeError "not a Generator"), h)
    end.

Definition Generator_set_state (g : loc) (st : GeneratorState) : M unit :=
  fun h => (Normal tt, <[g := GeneratorObj st]> h).

(** [g.next()]: the first call runs the body up to its [yield] or its
    [return]; the container is inspected then, not when [intoIter] was
    called.  A body that throws leaves the generator finished. *)
Definition Generator_next (g : loc) : M IteratorResult :=
  st <- Generator_state g;;
  match st with
  | OptionIterStart this =>
      Generator_set_state g IterDone;;;
      i <- Option_internal this;;
      match i with
      | OptionNone => ret {| value := VUndefined; done := true |}
      | OptionSome v =>
          Generator_set_state g IterYielded;;;
          ret {| value := v; done := false |}
      end
  | ResultIterStart this =>
      Generator_set_state g IterDone;;;
      i <- Result_internal this;;
      match i with
      | ResultErr _ => ret {| value := VUndefined; done := true |}
      | ResultOk v =>
          Generator_set_state g IterYielded;;;
          ret {| value := v; done := false |}
      end
  | IterYielded =>
      Generator_set_state g IterDone;;;
      ret {| value := VUndefined; done := true |}
  | IterDone => ret {| value := VUndefined; done := true |}
  end.

(** ** Vocabulary of the statements *)

(** [hay] has [needle] somewhere inside. *)
Definition contains (needle hay : string) : Prop :=
  exists pre post, hay = pre +:+ needle +:+ post.

(** A computation that leaves every object of the store as it was; it may
    only create new ones. *)
Definition keeps_store {A} (m : M A) : Prop :=
  forall (h : heap) (l : loc) (o : object),
    h !! l = Some o -> (m h).2 !! l = Some o.

(** The same, for every object but [this]. *)
Definition keeps_others {A} (this : loc) (m : M A) : Prop :=
  forall (h : heap) (l : loc) (o : object),
    l <> this -> h !! l = Some o -> (m h).2 !! l = Some o.

(** The calls of the [Result] class: its two static constructors and every
    method, on any receiver, with callbacks that keep the store. *)
Inductive Result_operation : forall A : Type, M A -> Prop :=
  | op_Result_Ok value : Result_operation loc (Result_Ok value)
  | op_Result_Err error : Result_operation loc (Result_Err error)
  | op_Result_isOk this : Result_operation bool (Result_isOk this)
  | op_Result_isErr this : Result_operation bool (Result_isErr this)
  | op_Result_expect this message : Result_operation val (Result_expect this message)
  | op_Result_unwrap this : Result_operation val (Result_unwrap this)
  | op_Result_unwrapOr this d : Result_operation val (Result_unwrapOr this d)
  | op_Result_unwrapOrElse this f :
      (forall e, keeps_store (f e)) ->
      Result_operation val (Result_unwrapOrElse this f)
  | op_Result_unwrapOrDefault this : Result_operation val (Result_unwrapOrDefault this)
  | op_Result_expectErr this message : Result_operation val (Result_expectErr this message)
  | op_Result_unwrapErr this : Result_operation val (Result_unwrapErr this)
  | op_Result_err this : Result_operation loc (Result_err this)
  | op_Result_ok this : Result_operation loc (Result_ok this)
  | op_Result_transpose this : Result_operation loc (Result_transpose this)
  | op_Result_map this f :
      (forall v, keeps_store (f v)) -> Result_operation loc (Result_map this f)
  | op_Result_mapErr this f :
      (forall e, keeps_store (f e)) -> Result_operation loc (Result_mapErr this f)
  | op_Result_mapOr this d f :
      (forall v, keeps_store (f v)) -> Result_operation val (Result_mapOr this d f)
  | op_Result_mapOrElse this f0 f1 :
      (forall e, keeps_store (f0 e)) -> (forall v, keeps_store (f1 v)) ->
      Result_operation val (Result_mapOrElse this f0 f1)
  | op_Result_and this other : Result_operation loc (Result_and this other)
  | op_Result_or this other : Result_operation loc (Result_or this other)
  | op_Result_andThen this f :
      (forall v, keeps_store (f v)) -> Result_operation loc (Result_andThen this f)
  | op_Result_orElse this f :
      (forall e, keeps_store (f e)) -> Result_operation loc (Result_orElse this f)
  | op_Result_intoIter this : Result_operation loc (Result_intoIter this).

(** The calls of the [Option] class other than its five in-place methods. *)
Inductive Option_operation : forall A : Type, M A -> Prop :=
  | op_Option_None : Option_operation loc Option_None
  | op_Option_Some value : Option_operation loc (Option_Some value)
  | op_Option_isNone this : Option_operation bool (Option_isNone this)
  | op_Option_isSome this : Option_operation bool (Option_isSome this)
  | op_Option_expect this message : Option_operation val (Option_expect this message)
  | op_Option_unwrap this : Option_operation val (Option_unwrap this)
  | op_Option_unwrapOr this d : Option_operation val (Option_unwrapOr this d)
  | op_Option_unwrapOrElse this f :
      keeps_store f -> Option_operation val (Option_unwrapOrElse this f)
  | op_Option_unwrapOrDefault this : Option_operation val (Option_unwrapOrDefault this)
  | op_Option_okOr this error : Option_operation loc (Option_okOr this error)
  | op_Option_okOrElse this f :
      keeps_store f -> Option_operation loc (Option_okOrElse this f)
  | op_Option_transpose this : Option_operation loc (Option_transpose this)
  | op_Option_filter this p :
      (forall v, keeps_store (p v)) -> Option_operation loc (Option_filter this p)
  | op_Option_flatten this : Option_operation loc (Option_flatten this)
  | op_Option_map this f :
      (forall v, keeps_store (f v)) -> Option_operation loc (Option_map this f)
  | op_Option_mapOr this d f :
      (forall v, keeps_store (f v)) -> Option_operation val (Option_mapOr this d f)
  | op_Option_mapOrElse this f0 f1 :
      keeps_store f0 -> (forall v, keeps_store (f1 v)) ->
      Option_operation val (Option_mapOrElse this f0 f1)
  | op_Option_zip this other : Option_operation loc (Option_zip this other)
  | op_Option_zipWith this other f :
      (forall v w, keeps_store (f v w)) ->
      Option_operation loc (Option_zipWith this other f)
  | op_Option_and this other : Option_operation loc (Option_and this other)
  | op_Option_or this other : Option_operation loc (Option_or this other)
  | op_Option_xor this other : Option_operation loc (Option_xor this other)
  | op_Option_andThen this f :
      (forall v, keeps_store (f v)) -> Option_operation loc (Option_andThen this f)
  | op_Option_orElse this f :
      keeps_store f -> Option_operation loc (Option_orElse this f)
  | op_Option_intoIter this : Option_operation loc (Option_intoIter this)
  | op_Option_getOrInsertDefault this :
      Option_operation val (Option_getOrInsertDefault this).

(** The five in-place methods, called on the receiver [this]. *)
Inductive Option_mutator (this : loc) : forall A : Type, M A -> Prop :=
  | op_Option_insert value : Option_mutator this val (Option_insert this value)
  | op_Option_getOrInsert value : Option_mutator this val (Option_getOrInsert this value)
  | op_Option_getOrInsertWith f :
      keeps_store f -> Option_mutator this val (Option_getOrInsertWith this f)
  | op_Option_take : Option_mutator this loc (Option_take this)
  | op_Option_replace value : Option_mutator this loc (Option_replace this value).

(** What [opt.map(f)] holds, given what [opt] holds. *)
Definition mapped (f : val -> val) (i : OptionInit) : OptionInit :=
  match i with
  | OptionNone => OptionNone
  | OptionSome value => OptionSome (f value)
  end.

(** A callback that computes its result from its argument alone. *)
Definition pure_fn (f : val -> val) : val -> M val := fun x => ret (f x).

(** A predicate that computes its answer from its argument alone. *)
Definition pure_pred (p : val -> bool) : val -> M bool := fun x => ret (p x).

(** What [opt.filter(p)] holds, given what [opt] holds. *)
Definition filtered (p : val -> bool) (i : OptionInit) : OptionInit :=
  match i with
  | OptionNone => OptionNone
  | OptionSome value => if p value then OptionSome value else OptionNone
  end.

(** The tag of a record, as [isSome] and [isOk] report it. *)
Definition is_Some_record (i : OptionInit) : bool :=
  match i with OptionSome _ => true | OptionNone => false end.

Definition is_Ok_record (i : ResultInit) : bool :=
  match i with ResultOk _ => true | ResultErr _ => false end.

(** [g.next()] called [n] times in a row; the results in order. *)
Fixpoint Generator_nexts (n : nat) (g : loc) : M (list IteratorResult) :=
  match n with
  | 0 => ret []
  | S n' => r <- Generator_next g;; rs <- Generator_nexts n' g;; ret (r :: rs)
  end.

(** * Properties *)

(** ** Running a computation *)

Lemma bind_Normal {A B} (m : M A) (k : A -> M B) h a h' :
  m h = (Normal a, h') -> bind m k h = k a h'.
Proof. unfold bind. intros ->. reflexivity. Qed.

Lemma lookup_alloc (h : heap) (o : object) : (h ++ [o]) !! length h = Some o.
Proof. by apply list_lookup_middle. Qed.

(** Running a method: unfold it, and read the store wherever a hypothesis (or
    an allocation just made) tells what is there. *)
Ltac unfold_methods :=
  cbv beta iota zeta delta
    [bind ret throw alloc stringify receiver
     Option_internal Result_internal Option_set_internal
     instanceof_Option instanceof_Result
     Result_new Result_Ok Result_Err Option_new Option_None Option_Some
     Result_isOk Result_isErr Option_isNone Option_isSome
     Result_expect Result_unwrap Result_unwrapOr Result_unwrapOrElse
     Result_unwrapOrDefault Result_expectErr Result_unwrapErr
     Option_expect Option_unwrap Option_unwrapOr Option_unwrapOrElse
     Option_unwrapOrDefault
     Result_err Result_ok Result_transpose Result_map Result_mapErr
     Result_mapOr Result_mapOrElse Result_and Result_or Result_andThen
     Result_orElse
     Option_okOr Option_okOrElse Option_transpose Option_filter Option_flatten
     Option_map Option_mapOr Option_mapOrElse Option_zip Option_zipWith
     Option_and Option_or Option_xor Option_andThen Option_orElse
     Option_value Option_insert Option_getOrInsert Option_getOrInsertWith
     Option_getOrInsertDefault Option_take Option_replace pure_fn].

Lemma lookup_fresh (h k : heap) (n : nat) : (h ++ k) !! (length h + n) = k !! n.
Proof. rewrite lookup_app_r by lia. f_equal. lia. Qed.

Lemma lookup_fresh_0 (h k : heap) : (h ++ k) !! length h = k !! 0.
Proof. rewrite <- (lookup_fresh h k 0). f_equal. lia. Qed.

(** New objects are kept as one list after the store they were added to. *)
Ltac gather_store :=
  rewrite <- ?app_assoc, ?length_app; cbn [app length].

Ltac read_store :=
  match goal with
  | H : ?h !! ?l = Some _ |- context [?h !! ?l] => rewrite H
  | H : ?h !! ?l = Some ?o |- context [(?h ++ ?k) !! ?l] =>
      rewrite (lookup_app_l_Some h k l o H)
  | |- context [(?h ++ ?k) !! (length ?h + ?n)] =>
      rewrite (lookup_fresh h k n); cbn [lookup list_lookup]
  | |- context [(?h ++ ?k) !! length ?h] =>
      rewrite (lookup_fresh_0 h k); cbn [lookup list_lookup]
  end.

Ltac run :=
  unfold_methods; gather_store;
  repeat (read_store; cbv beta iota; gather_store).

(** ** Variant queries and extraction *)

Lemma Option_unwrap_Some (h : heap) this v :
  h !! this = Some (OptionObj (OptionSome v)) -> Option_unwrap this h = (Normal v, h).
Proof. intros H. by run. Qed.

Lemma Option_unwrap_None (h : heap) this :
  h !! this = Some (OptionObj OptionNone) ->
  Option_unwrap this h = (Throw (Error "Called `Option.unwrap()` on a `None` value."), h).
Proof. intros H. by run. Qed.

Lemma Option_expect_Some (h : heap) this message v :
  h !! this = Some (OptionObj (OptionSome v)) -> Option_expect this message h = (Normal v, h).
Proof. intros H. by run. Qed.

Lemma Option_expect_None (h : heap) this message :
  h !! this = Some (OptionObj OptionNone) ->
  Option_expect this message h = (Throw (Error message), h).
Proof. intros H. by run. Qed.

Lemma Result_unwrap_Ok (h : heap) this v :
  h !! this = Some (ResultObj (ResultOk v)) -> Result_unwrap this h = (Normal v, h).
Proof. intros H. by run. Qed.

Lemma Result_unwrap_Err (h : heap) this e :
  h !! this = Some (ResultObj (ResultErr e)) ->
  Result_unwrap this h = (Throw (Error (to_string h e)), h).
Proof. intros H. by run. Qed.

Lemma Result_expect_Ok (h : heap) this message v :
  h !! this = Some (ResultObj (ResultOk v)) -> Result_expect this message h = (Normal v, h).
Proof. intros H. by run. Qed.

Lemma Result_expect_Err (h : heap) this message e :
  h !! this = Some (ResultObj (ResultErr e)) ->
  Result_expect this message h = (Throw (Error (message +:+ ": " +:+ to_string h e)), h).
Proof. intros H. by run. Qed.

Lemma Result_unwrapErr_Err (h : heap) this e :
  h !! this = Some (ResultObj (ResultErr e)) -> Result_unwrapErr this h = (Normal e, h).
Proof. intros H. by run. Qed.

Lemma append_nil_r (s : string) : s +:+ "" = s.
Proof.
  induction s as [|c s IH]; [reflexivity|].
  change (String c (s +:+ "") = String c s). by rewrite IH.
Qed.

Lemma append_assoc (s t u : string) : (s +:+ t) +:+ u = s +:+ t +:+ u.
Proof.
  induction s as [|c s IH]; [reflexivity|].
  change (String c ((s +:+ t) +:+ u) = String c (s +:+ t +:+ u)). by rewrite IH.
Qed.

Lemma contains_refl (s : string) : contains s s.
Proof. exists "", "". rewrite append_nil_r. reflexivity. Qed.

Lemma contains_prefix (s t : string) : contains s (s +:+ t).
Proof. exists "", t. reflexivity. Qed.

Lemma contains_suffix (s t : string) : contains t (s +:+ t).
Proof. exists s, "". by rewrite append_nil_r. Qed.

(** Every number of the model lies below [10^21], where [Number::toString]
    changes to exponent notation: its digits are the plain decimal ones. *)
Lemma safe_integers_print_in_decimal (n : Number) :
  (Z.abs (integer n) < 10 ^ 21)%Z.
Proof.
  destruct n as [z Hz]. cbn [integer]. unfold isSafeInteger in Hz.
  apply Z.leb_le in Hz. lia.
Qed.

(** C10: for every payload [v], [null] and [undefined] included,
    [Option.Some(v)] makes a container on which [isSome()] is true,
    [isNone()] is false and [unwrap()] returns [v]; the variant comes from
    the constructor alone, never from the payload. *)
Theorem Some_is_Some_of_any_payload :
  forall (h : heap) (v : val),
    (o <- Option_Some v;;
     s <- Option_isSome o;;
     n <- Option_isNone o;;
     u <- Option_unwrap o;;
     ret (s, n, u)) h
    = (Normal (true, false, v), h ++ [OptionObj (OptionSome v)]).
Proof.
  intros h v.
  by run.
Qed.

(** C7: [unwrapOrDefault()] of both classes and [getOrInsertDefault()] of
    [Option] throw on every receiver, whatever its variant, and leave the
    store as it was. *)
Theorem default_methods_always_throw :
  forall (h : heap) (this : loc),
    Option_unwrapOrDefault this h
      = (Throw (Error "Not implemented: use either `unwrapOr` or `unwrapOrElse` instead."), h)
    /\ Option_getOrInsertDefault this h
      = (Throw (Error "Not implemented: use either `getOrInsert` or `getOrInsertWith` instead."), h)
    /\ Result_unwrapOrDefault this h
      = (Throw (Error "Not implemented: use either `unwrapOr` or `unwrapOrElse` instead."), h).
Proof. intros h this. repeat split. Qed.

(** C5: on an [Option], [unwrap()] and [expect(msg)] return the value of a
    [Some] and throw exactly on a [None], [expect] with [msg] as the message;
    on a [Result] they return the value of an [Ok] and throw exactly on an
    [Err], the message carrying the error payload as a string.  So
    [Result.Err("boom").unwrap()] throws with a message containing ["boom"]
    and [Option.None().expect("missing")] with one containing ["missing"];
    [Result.Err([-42, null, "x"]).expect("bad")] throws ["bad: -42,,x"]. *)
Theorem unwrap_expect_return_or_throw :
  (forall (h : heap) (this : loc) (i : OptionInit) (message : string),
      h !! this = Some (OptionObj i) ->
      match i with
      | OptionSome v =>
          Option_unwrap this h = (Normal v, h)
          /\ Option_expect this message h = (Normal v, h)
      | OptionNone =>
          (exists m, Option_unwrap this h = (Throw (Error m), h))
          /\ Option_expect this message h = (Throw (Error message), h)
      end)
  /\ (forall (h : heap) (this : loc) (i : ResultInit) (message : string),
      h !! this = Some (ResultObj i) ->
      match i with
      | ResultOk v =>
          Result_unwrap this h = (Normal v, h)
          /\ Result_expect this message h = (Normal v, h)
      | ResultErr e =>
          Result_unwrap this h = (Throw (Error (to_string h e)), h)
          /\ (exists m, Result_expect this message h = (Throw (Error m), h)
                        /\ contains message m /\ contains (to_string h e) m)
      end)
  /\ (exists m h',
        (r <- Result_Err (VStr "boom");; Result_unwrap r) [] = (Throw (Error m), h')
        /\ contains "boom" m)
  /\ (exists m h',
        (o <- Option_None;; Option_expect o "missing") [] = (Throw (Error m), h')
        /\ contains "missing" m)
  /\ (r <- Result_Err (VArr [VNum (-42); VNull; VStr "x"]);; Result_expect r "bad") []
     = (Throw (Error "bad: -42,,x"),
        [ResultObj (ResultErr (VArr [VNum (-42); VNull; VStr "x"]))]).
Proof.
  split; [|split; [|split; [|split]]]; [| | | |reflexivity].
  - intros h this [|v] message H.
    + split; [eexists; by apply Option_unwrap_None | by apply Option_expect_None].
    + split; [by apply Option_unwrap_Some | by apply Option_expect_Some].
  - intros h this [e|v] message H.
    + split; [by apply Result_unwrap_Err|].
      eexists. split; [by apply Result_expect_Err|]. split.
      * apply contains_prefix.
      * rewrite <- append_assoc. apply contains_suffix.
    + split; [by apply Result_unwrap_Ok | by apply Result_expect_Ok].
  - eexists _, _. split; [reflexivity | apply contains_refl].
  - eexists _, _. split; [reflexivity | apply contains_refl].
Qed.

(** The store of the witness: one [None], one [Some(1)], one [Err("boom")]
    and one [Ok(1)]. *)
Lemma unwrap_expect_return_or_throw_witness :
  let h := [OptionObj OptionNone; OptionObj (OptionSome (VNum 1));
            ResultObj (ResultErr (VStr "boom")); ResultObj (ResultOk (VNum 1))] in
  Option_expect 0 "missing" h = (Throw (Error "missing"), h)
  /\ Option_unwrap 1 h = (Normal (VNum 1), h)
  /\ Result_unwrap 2 h = (Throw (Error "boom"), h)
  /\ Result_expect 3 "no" h = (Normal (VNum 1), h).
Proof.
  intros h.
  destruct unwrap_expect_return_or_throw as (HO & HR & _).
  split; [|split; [|split]].
  - exact (proj2 (HO h 0 OptionNone "missing" eq_refl)).
  - exact (proj1 (HO h 1 (OptionSome (VNum 1)) "" eq_refl)).
  - exact (proj1 (HR h 2 (ResultErr (VStr "boom")) "" eq_refl)).
  - exact (proj2 (HR h 3 (ResultOk (VNum 1)) "no" eq_refl)).
Defined.

(** ** Conversions between the two classes *)

(** C4: [Option.Some(v).okOr(e).ok().unwrap()] is [v] and
    [Option.None().okOr(e).unwrapErr()] is [e], for every [v] and [e];
    [okOr] makes an [Ok(v)] of a [Some(v)] and an [Err(e)] of a [None]. *)
Theorem okOr_round_trip :
  forall (h : heap) (v e : val),
    (exists h',
        (o <- Option_Some v;; r <- Option_okOr o e;; p <- Result_ok r;;
         Option_unwrap p) h = (Normal v, h'))
    /\ (exists h',
        (o <- Option_None;; r <- Option_okOr o e;; Result_unwrapErr r) h
        = (Normal e, h'))
    /\ (o <- Option_Some v;; r <- Option_okOr o e;; Result_internal r) h
       = (Normal (ResultOk v), h ++ [OptionObj (OptionSome v); ResultObj (ResultOk v)])
    /\ (o <- Option_None;; r <- Option_okOr o e;; Result_internal r) h
       = (Normal (ResultErr e), h ++ [OptionObj OptionNone; ResultObj (ResultErr e)]).
Proof.
  intros h v e. repeat split.
  - eexists. by run.
  - eexists. by run.
  - by run.
  - by run.
Qed.

(** ** The in-place methods [take] and [replace] *)

Lemma Option_take_at (h : heap) this i :
  h !! this = Some (OptionObj i) ->
  Option_take this h
  = (Normal (length h), <[this := OptionObj OptionNone]> h ++ [OptionObj i]).
Proof. intros H. run. by rewrite length_insert. Qed.

Lemma Option_replace_at (h : heap) this i v :
  h !! this = Some (OptionObj i) ->
  Option_replace this v h
  = (Normal (length h), <[this := OptionObj (OptionSome v)]> h ++ [OptionObj i]).
Proof. intros H. run. by rewrite length_insert. Qed.

Lemma moved_out (h : heap) this (o o' : object) :
  this < length h ->
  let h' := <[this := o']> h ++ [o] in
  length h <> this /\ h !! length h = None
  /\ h' !! length h = Some o /\ h' !! this = Some o'.
Proof.
  intros Hlt h'. subst h'. repeat split.
  - lia.
  - by apply lookup_ge_None_2.
  - rewrite <- (length_insert h this o'). apply lookup_alloc.
  - apply lookup_app_l_Some. by apply list_lookup_insert_eq.
Qed.

(** C6: [o.take()] returns a new container that holds what [o] held and
    leaves [o] a [None]; [o.replace(v)] returns a new container that holds
    what [o] held and leaves [o] a [Some(v)]. *)
Theorem take_replace_move_the_variant_out :
  forall (h : heap) (this : loc) (i : OptionInit),
    h !! this = Some (OptionObj i) ->
    (exists taken h',
        Option_take this h = (Normal taken, h')
        /\ taken <> this /\ h !! taken = None
        /\ h' !! taken = Some (OptionObj i)
        /\ h' !! this = Some (OptionObj OptionNone))
    /\ (forall v, exists old h',
        Option_replace this v h = (Normal old, h')
        /\ old <> this /\ h !! old = None
        /\ h' !! old = Some (OptionObj i)
        /\ h' !! this = Some (OptionObj (OptionSome v))).
Proof.
  intros h this i H.
  pose proof (lookup_lt_Some _ _ _ H) as Hlt.
  split; [|intros v]; eexists _, _.
  - split; [by apply Option_take_at | by apply moved_out].
  - split; [by apply Option_replace_at | by apply moved_out].
Qed.

(** [o = Option.Some(1)]: [o.take()] gives a second container, a [Some(1)],
    and [o] is a [None]; [o.replace(2)] gives a [Some(1)] and [o] is a
    [Some(2)]. *)
Lemma take_replace_move_the_variant_out_witness :
  let h := [OptionObj (OptionSome (VNum 1))] in
  (exists taken h',
      Option_take 0 h = (Normal taken, h')
      /\ taken <> 0 /\ h !! taken = None
      /\ h' !! taken = Some (OptionObj (OptionSome (VNum 1)))
      /\ h' !! 0 = Some (OptionObj OptionNone))
  /\ (exists old h',
      Option_replace 0 (VNum 2) h = (Normal old, h')
      /\ old <> 0 /\ h !! old = None
      /\ h' !! old = Some (OptionObj (OptionSome (VNum 1)))
      /\ h' !! 0 = Some (OptionObj (OptionSome (VNum 2)))).
Proof.
  intros h.
  destruct (take_replace_move_the_variant_out h 0 (OptionSome (VNum 1)) eq_refl)
    as [Htake Hreplace].
  split; [exact Htake | exact (Hreplace (VNum 2))].
Defined.

(** ** Mapping *)

Lemma Option_map_pure_at (h : heap) this i (f : val -> val) :
  h !! this = Some (OptionObj i) ->
  Option_map this (pure_fn f) h = (Normal (length h), h ++ [OptionObj (mapped f i)]).
Proof. intros H. destruct i; by run. Qed.

(** C9: for every [Option] and all pure [f] and [g], [opt.map(f).map(g)]
    and [opt.map(x => g(f(x)))] are containers that hold the same: a [None]
    when [opt] is one, and [Some(g(f(v)))] when [opt] is [Some(v)]. *)
Theorem map_composition :
  forall (h : heap) (opt : loc) (i : OptionInit) (f g : val -> val),
    h !! opt = Some (OptionObj i) ->
    exists l1 h1 l2 h2,
      (a <- Option_map opt (pure_fn f);; Option_map a (pure_fn g)) h = (Normal l1, h1)
      /\ Option_map opt (pure_fn (fun x => g (f x))) h = (Normal l2, h2)
      /\ h1 !! l1 = h2 !! l2
      /\ h2 !! l2 = Some (OptionObj (mapped (fun x => g (f x)) i)).
Proof.
  intros h opt i f g H. eexists _, _, _, _.
  split; [|split; [by apply Option_map_pure_at|]].
  - rewrite (bind_Normal _ _ _ _ _ (Option_map_pure_at h opt i f H)).
    apply Option_map_pure_at, lookup_alloc.
  - rewrite !lookup_alloc. split; [|done]. by destruct i.
Qed.

Lemma map_composition_witness :
  let h := [OptionObj (OptionSome (VNum 1))] in
  let f := fun x => VArr [x; x] in
  let g := fun x => VArr [x; VNull] in
  exists l1 h1 l2 h2,
    (a <- Option_map 0 (pure_fn f);; Option_map a (pure_fn g)) h = (Normal l1, h1)
    /\ Option_map 0 (pure_fn (fun x => g (f x))) h = (Normal l2, h2)
    /\ h1 !! l1 = h2 !! l2
    /\ h2 !! l2 = Some (OptionObj (OptionSome (VArr [VArr [VNum 1; VNum 1]; VNull]))).
Proof.
  intros h f g.
  exact (map_composition h 0 (OptionSome (VNum 1)) f g eq_refl).
Defined.

(** ** [xor] *)

(** What [xor] returns, case by case: the receiver itself unless it is a
    [None] and [other] is a [Some]. *)
Lemma Option_xor_at (h : heap) this other i j :
  h !! this = Some (OptionObj i) ->
  h !! other = Some (OptionObj j) ->
  Option_xor this other h
  = (Normal (match i, j with OptionNone, OptionSome _ => other | _, _ => this end), h).
Proof. intros Hi Hj. destruct i, j; by run. Qed.

(** C3, at [Option.Some(1).xor(Option.Some(2))]: the method returns its
    receiver, which is a [Some] holding [1], where one [None] was to be
    returned. *)
Theorem xor_of_two_Some_is_the_receiver :
  (a <- Option_Some (VNum 1);;
   b <- Option_Some (VNum 2);;
   x <- Option_xor a b;;
   s <- Option_isSome x;;
   u <- Option_unwrap x;;
   ret (a, x, s, u)) []
  = (Normal (0, 0, true, VNum 1),
     [OptionObj (OptionSome (VNum 1)); OptionObj (OptionSome (VNum 2))]).
Proof. reflexivity. Qed.

(** ** [transpose] *)

Lemma Result_transpose_Err (h : heap) this e :
  h !! this = Some (ResultObj (ResultErr e)) ->
  Result_transpose this h
  = (Normal (length h + 1),
     h ++ [ResultObj (ResultErr e); OptionObj (OptionSome (VRef (length h)))]).
Proof. intros H. by run. Qed.

Lemma Result_transpose_Ok_None (h : heap) this inner :
  h !! this = Some (ResultObj (ResultOk (VRef inner))) ->
  h !! inner = Some (OptionObj OptionNone) ->
  Result_transpose this h = (Normal (length h), h ++ [OptionObj OptionNone]).
Proof. intros H Hinner. by run. Qed.

(** On an [Ok] of a [Some(v)] the new [Option] holds [v] itself: no [Result]
    is made. *)
Lemma Result_transpose_Ok_Some (h : heap) this inner v :
  h !! this = Some (ResultObj (ResultOk (VRef inner))) ->
  h !! inner = Some (OptionObj (OptionSome v)) ->
  Result_transpose this h = (Normal (length h), h ++ [OptionObj (OptionSome v)]).
Proof. intros H Hinner. by run. Qed.

(** C1, at [Result.Ok(Option.Some(5)).transpose()]: the [Option] returned
    holds the number [5], not an [Ok(5)], so that [.unwrap()] gives [5] and
    a second [.unwrap()] has no receiver. *)
Theorem Result_transpose_Ok_Some_5 :
  (o <- Option_Some (VNum 5);;
   r <- Result_Ok (VRef o);;
   t <- Result_transpose r;;
   Option_unwrap t) []
  = (Normal (VNum 5),
     [OptionObj (OptionSome (VNum 5)); ResultObj (ResultOk (VRef 0));
      OptionObj (OptionSome (VNum 5))])
  /\ (o <- Option_Some (VNum 5);;
      r <- Result_Ok (VRef o);;
      t <- Result_transpose r;;
      p <- Option_unwrap t;;
      q <- receiver p;;
      Result_unwrap q) []
     = (Throw (TypeError "not a function"),
        [OptionObj (OptionSome (VNum 5)); ResultObj (ResultOk (VRef 0));
         OptionObj (OptionSome (VNum 5))]).
Proof. split; reflexivity. Qed.

Lemma Option_transpose_None (h : heap) this :
  h !! this = Some (OptionObj OptionNone) ->
  Option_transpose this h
  = (Normal (length h + 1),
     h ++ [OptionObj OptionNone; ResultObj (ResultOk (VRef (length h)))]).
Proof. intros H. by run. Qed.

Lemma Option_transpose_Some_Err (h : heap) this inner e :
  h !! this = Some (OptionObj (OptionSome (VRef inner))) ->
  h !! inner = Some (ResultObj (ResultErr e)) ->
  Option_transpose this h = (Normal (length h), h ++ [ResultObj (ResultErr e)]).
Proof. intros H Hinner. by run. Qed.

(** On a [Some] of an [Ok(v)] the new [Result] holds [v] itself: no [Option]
    is made. *)
Lemma Option_transpose_Some_Ok (h : heap) this inner v :
  h !! this = Some (OptionObj (OptionSome (VRef inner))) ->
  h !! inner = Some (ResultObj (ResultOk v)) ->
  Option_transpose this h = (Normal (length h), h ++ [ResultObj (ResultOk v)]).
Proof. intros H Hinner. by run. Qed.

(** It throws exactly on a [Some] whose payload is no [Result]. *)
Lemma Option_transpose_throws (h : heap) this i :
  h !! this = Some (OptionObj i) ->
  (exists e h', Option_transpose this h = (Throw e, h'))
  <-> exists v, i = OptionSome v /\ instanceof_Result v h = (Normal None, h).
Proof.
  intros H. split.
  - intros (e & h' & Hrun). destruct i as [|v]; [by rewrite Option_transpose_None in Hrun|].
    exists v. split; [done|]. revert Hrun. unfold instanceof_Result. run.
    destruct v as [| | | | | |l]; try done.
    destruct (h !! l) as [[|[e'|v']|]|] eqn:Hl; try done; by run.
  - intros (v & -> & Hv). eexists _, _. run.
    unfold instanceof_Result in Hv |- *. run.
    destruct v as [| | | | | |l]; try done.
    destruct (h !! l) as [[| |]|] eqn:Hl; done.
Qed.

(** C2, at [Option.Some(Result.Ok(5)).transpose()]: the [Result] returned
    is an [Ok] that holds the number [5], not a [Some(5)]. *)
Theorem Option_transpose_Some_Ok_5 :
  (r <- Result_Ok (VNum 5);;
   o <- Option_Some (VRef r);;
   t <- Option_transpose o;;
   Result_unwrap t) []
  = (Normal (VNum 5),
     [ResultObj (ResultOk (VNum 5)); OptionObj (OptionSome (VRef 0));
      ResultObj (ResultOk (VNum 5))])
  /\ (r <- Result_Ok (VNum 5);;
      o <- Option_Some (VRef r);;
      t <- Option_transpose o;;
      p <- Result_unwrap t;;
      instanceof_Option p) []
     = (Normal None,
        [ResultObj (ResultOk (VNum 5)); OptionObj (OptionSome (VRef 0));
         ResultObj (ResultOk (VNum 5))]).
Proof. split; reflexivity. Qed.

(** ** What a call leaves untouched *)

Lemma keeps_ret {A} (a : A) : keeps_store (ret a).
Proof. by intros h l o H. Qed.

Lemma keeps_throw {A} (e : exn) : keeps_store (@throw A e).
Proof. by intros h l o H. Qed.

Lemma keeps_alloc (o : object) : keeps_store (alloc o).
Proof. intros h l o' H. by apply lookup_app_l_Some. Qed.

Lemma keeps_bind {A B} (m : M A) (k : A -> M B) :
  keeps_store m -> (forall a, keeps_store (k a)) -> keeps_store (bind m k).
Proof.
  intros Hm Hk h l o H. unfold bind.
  specialize (Hm h l o H). destruct (m h) as [[a|e] h1]; [|done].
  by apply Hk.
Qed.

Lemma keeps_Option_internal this : keeps_store (Option_internal this).
Proof.
  intros h l o H. unfold Option_internal.
  by destruct (h !! this) as [[| |]|].
Qed.

Lemma keeps_Result_internal this : keeps_store (Result_internal this).
Proof.
  intros h l o H. unfold Result_internal.
  by destruct (h !! this) as [[| |]|].
Qed.

Lemma keeps_Generator_state g : keeps_store (Generator_state g).
Proof.
  intros h l o H. unfold Generator_state.
  by destruct (h !! g) as [[| |]|].
Qed.

Lemma keeps_instanceof_Option v : keeps_store (instanceof_Option v).
Proof.
  intros h l o H. unfold instanceof_Option.
  destruct v as [| | | | | |l']; try done.
  by destruct (h !! l') as [[| |]|].
Qed.

Lemma keeps_instanceof_Result v : keeps_store (instanceof_Result v).
Proof.
  intros h l o H. unfold instanceof_Result.
  destruct v as [| | | | | |l']; try done.
  by destruct (h !! l') as [[| |]|].
Qed.

Lemma keeps_stringify v : keeps_store (stringify v).
Proof. by intros h l o H. Qed.

Lemma keeps_store_others {A} this (m : M A) : keeps_store m -> keeps_others this m.
Proof. intros Hm h l o _. apply Hm. Qed.

Lemma others_bind {A B} this (m : M A) (k : A -> M B) :
  keeps_others this m -> (forall a, keeps_others this (k a)) ->
  keeps_others this (bind m k).
Proof.
  intros Hm Hk h l o Hne H. unfold bind.
  specialize (Hm h l o Hne H). destruct (m h) as [[a|e] h1]; [|done].
  by apply Hk.
Qed.

Lemma others_Option_set_internal this init :
  keeps_others this (Option_set_internal this init).
Proof.
  intros h l o Hne H. unfold Option_set_internal. cbn.
  by rewrite list_lookup_insert_ne.
Qed.

Lemma others_Generator_set_state g st :
  keeps_others g (Generator_set_state g st).
Proof.
  intros h l o Hne H. unfold Generator_set_state. cbn.
  by rewrite list_lookup_insert_ne.
Qed.

(** Unfold a method down to the reads, writes and allocations it is made of. *)
Ltac unfold_to_steps :=
  cbv beta delta
    [Result_new Result_Ok Result_Err Option_new Option_None Option_Some
     Result_isOk Result_isErr Option_isNone Option_isSome
     Result_expect Result_unwrap Result_unwrapOr Result_unwrapOrElse
     Result_unwrapOrDefault Result_expectErr Result_unwrapErr
     Option_expect Option_unwrap Option_unwrapOr Option_unwrapOrElse
     Option_unwrapOrDefault
     Result_err Result_ok Result_transpose Result_map Result_mapErr
     Result_mapOr Result_mapOrElse Result_and Result_or Result_andThen
     Result_orElse Result_intoIter
     Option_okOr Option_okOrElse Option_transpose Option_filter Option_flatten
     Option_map Option_mapOr Option_mapOrElse Option_zip Option_zipWith
     Option_and Option_or Option_xor Option_andThen Option_orElse
     Option_intoIter
     Option_value Option_insert Option_getOrInsert Option_getOrInsertWith
     Option_getOrInsertDefault Option_take Option_replace Generator_next].

Ltac keeps :=
  repeat first
    [ assumption
    | apply keeps_ret | apply keeps_throw | apply keeps_alloc
    | apply keeps_Option_internal | apply keeps_Result_internal
    | apply keeps_instanceof_Option | apply keeps_instanceof_Result
    | apply keeps_stringify
    | apply keeps_bind; [|intros ?]
    | match goal with
      | |- keeps_store (match ?x with _ => _ end) => destruct x
      | H : forall v, keeps_store _ |- keeps_store _ => apply H
      | H : forall v w, keeps_store _ |- keeps_store _ => apply H
      end ].

Ltac others :=
  repeat first
    [ apply others_Option_set_internal | apply others_Generator_set_state
    | apply others_bind; [|intros ?]
    | match goal with
      | |- keeps_others _ (match ?x with _ => _ end) => destruct x
      end
    | apply keeps_store_others;
      first [ apply keeps_Generator_state | solve [keeps] ] ].

Lemma Result_operation_keeps_store {A} (m : M A) :
  Result_operation A m -> keeps_store m.
Proof. intros Hop. destruct Hop; unfold_to_steps; keeps. Qed.

Lemma Option_operation_keeps_store {A} (m : M A) :
  Option_operation A m -> keeps_store m.
Proof. intros Hop. destruct Hop; unfold_to_steps; keeps. Qed.

Lemma Option_mutator_keeps_others {A} this (m : M A) :
  Option_mutator this A m -> keeps_others this m.
Proof. intros Hop. destruct Hop; unfold_to_steps; others. Qed.

Lemma Generator_next_keeps_others g : keeps_others g (Generator_next g).
Proof. unfold_to_steps. others. Qed.

(** C8: a call of any method other than [insert], [getOrInsert],
    [getOrInsertWith], [take] and [replace] leaves every container of the
    store as it was, its receiver and its arguments included; so does every
    call on a [Result].  A call of one of the five leaves every container
    but its receiver as it was, a container passed as an argument included.
    The callbacks passed in are ones that keep the store themselves.
    Advancing a generator made by [intoIter] changes that generator only. *)
Theorem only_the_in_place_methods_write :
  (forall (A : Type) (m : M A), Result_operation A m -> keeps_store m)
  /\ (forall (A : Type) (m : M A), Option_operation A m -> keeps_store m)
  /\ (forall (A : Type) (this : loc) (m : M A),
        Option_mutator this A m -> keeps_others this m)
  /\ (forall g : loc, keeps_others g (Generator_next g)).
Proof.
  split; [|split; [|split]].
  - intros A m. apply Result_operation_keeps_store.
  - intros A m. apply Option_operation_keeps_store.
  - intros A this m. apply Option_mutator_keeps_others.
  - apply Generator_next_keeps_others.
Qed.

(** A store with a [Some(1)], a [None] and an [Ok(2)]: mapping the [Ok]
    with a callback that makes a container, zipping the two options, and
    replacing the payload of the first by the second. *)
Lemma only_the_in_place_methods_write_witness :
  let h := [OptionObj (OptionSome (VNum 1)); OptionObj OptionNone;
            ResultObj (ResultOk (VNum 2))] in
  let wrap := fun v => (o <- Option_Some v;; ret (VRef o)) in
  (Result_map 2 wrap h).2 !! 2 = Some (ResultObj (ResultOk (VNum 2)))
  /\ (Option_zip 0 1 h).2 !! 0 = Some (OptionObj (OptionSome (VNum 1)))
  /\ (Option_zip 0 1 h).2 !! 1 = Some (OptionObj OptionNone)
  /\ (Option_replace 0 (VRef 1) h).2 !! 1 = Some (OptionObj OptionNone).
Proof.
  intros h wrap.
  destruct only_the_in_place_methods_write as (HR & HO & HM & _).
  assert (Hwrap : forall v, keeps_store (wrap v)).
  { intros v. apply keeps_bind; [apply keeps_alloc | intros o; apply keeps_ret]. }
  split; [|split; [|split]].
  - exact (HR _ _ (op_Result_map 2 wrap Hwrap) h 2 _ eq_refl).
  - exact (HO _ _ (op_Option_zip 0 1) h 0 _ eq_refl).
  - exact (HO _ _ (op_Option_zip 0 1) h 1 _ eq_refl).
  - refine (HM _ 0 _ (op_Option_replace 0 (VRef 1)) h 1 _ _ eq_refl). discriminate.
Defined.

(** * Further properties of the two classes *)

(** ** Queries and projections *)

(** X1: on every [Option], [isSome()] and [isNone()] give opposite answers,
    and on every [Result] so do [isOk()] and [isErr()]; neither call changes
    the store. *)
Theorem variant_queries_are_opposite :
  (forall (h : heap) (this : loc) (i : OptionInit),
      h !! this = Some (OptionObj i) ->
      Option_isSome this h = (Normal (is_Some_record i), h)
      /\ Option_isNone this h = (Normal (negb (is_Some_record i)), h))
  /\ (forall (h : heap) (this : loc) (i : ResultInit),
      h !! this = Some (ResultObj i) ->
      Result_isOk this h = (Normal (is_Ok_record i), h)
      /\ Result_isErr this h = (Normal (negb (is_Ok_record i)), h)).
Proof. split; intros h this [|] H; split; by run. Qed.

Lemma variant_queries_are_opposite_witness :
  let h := [OptionObj (OptionSome VNull); ResultObj (ResultErr VUndefined)] in
  (Option_isSome 0 h = (Normal true, h) /\ Option_isNone 0 h = (Normal false, h))
  /\ (Result_isOk 1 h = (Normal false, h) /\ Result_isErr 1 h = (Normal true, h)).
Proof.
  intros h. destruct variant_queries_are_opposite as [HO HR].
  split.
  - exact (HO h 0 (OptionSome VNull) eq_refl).
  - exact (HR h 1 (ResultErr VUndefined) eq_refl).
Defined.

(** X2: [ok()] and [err()] split a [Result] between them: of the two new
    options exactly one is a [Some], and it holds the payload of the
    [Result]; the [Result] itself is left as it was. *)
Theorem ok_and_err_are_complementary :
  forall (h : heap) (this : loc) (i : ResultInit),
    h !! this = Some (ResultObj i) ->
    exists a b h',
      (a <- Result_ok this;; b <- Result_err this;; ret (a, b)) h = (Normal (a, b), h')
      /\ a <> b /\ h !! a = None /\ h !! b = None
      /\ h' !! this = Some (ResultObj i)
      /\ match i with
         | ResultOk v =>
             h' !! a = Some (OptionObj (OptionSome v))
             /\ h' !! b = Some (OptionObj OptionNone)
         | ResultErr e =>
             h' !! a = Some (OptionObj OptionNone)
             /\ h' !! b = Some (OptionObj (OptionSome e))
         end.
Proof.
  intros h this i H.
  pose proof (lookup_lt_Some _ _ _ H) as Hlt.
  exists (length h), (length h + 1).
  destruct i as [e|v]; eexists; (split; [by run|]);
    (split; [lia|]); rewrite !lookup_ge_None_2 by lia;
    (split; [done|]); (split; [done|]);
    rewrite (lookup_app_l_Some _ _ _ _ H), lookup_fresh_0, lookup_fresh; done.
Qed.

Lemma ok_and_err_are_complementary_witness :
  let h := [ResultObj (ResultErr (VStr "e"))] in
  exists a b h',
    (a <- Result_ok 0;; b <- Result_err 0;; ret (a, b)) h = (Normal (a, b), h')
    /\ a <> b /\ h !! a = None /\ h !! b = None
    /\ h' !! 0 = Some (ResultObj (ResultErr (VStr "e")))
    /\ h' !! a = Some (OptionObj OptionNone)
    /\ h' !! b = Some (OptionObj (OptionSome (VStr "e"))).
Proof.
  intros h. exact (ok_and_err_are_complementary h 0 (ResultErr (VStr "e")) eq_refl).
Defined.

(** X3: going to a [Result] and back loses nothing of an [Option]:
    [o.okOr(e).ok()] is a new option that holds what [o] holds, for a [None]
    as for a [Some].  The other way round, [r.ok().okOr(e')] holds the value
    of an [Ok], and of an [Err] keeps only that it failed: its error is
    [e'], not the error of [r]. *)
Theorem okOr_ok_round_trips :
  (forall (h : heap) (this : loc) (i : OptionInit) (e : val),
      h !! this = Some (OptionObj i) ->
      exists p h',
        (r <- Option_okOr this e;; Result_ok r) h = (Normal p, h')
        /\ p <> this /\ h' !! p = Some (OptionObj i))
  /\ (forall (h : heap) (this : loc) (i : ResultInit) (e' : val),
      h !! this = Some (ResultObj i) ->
      exists r h',
        (o <- Result_ok this;; Option_okOr o e') h = (Normal r, h')
        /\ r <> this
        /\ h' !! r = Some (ResultObj (match i with
                                      | ResultOk v => ResultOk v
                                      | ResultErr _ => ResultErr e'
                                      end))).
Proof.
  split; intros h this i e H; pose proof (lookup_lt_Some _ _ _ H) as Hlt;
    exists (length h + 1); destruct i; eexists;
    (split; [by run|]); (split; [lia|]); by rewrite lookup_fresh.
Qed.

Lemma okOr_ok_round_trips_witness :
  let h := [OptionObj OptionNone; ResultObj (ResultErr (VStr "first"))] in
  (exists p h',
      (r <- Option_okOr 0 (VStr "e");; Result_ok r) h = (Normal p, h')
      /\ p <> 0 /\ h' !! p = Some (OptionObj OptionNone))
  /\ (exists r h',
      (o <- Result_ok 1;; Option_okOr o (VStr "second")) h = (Normal r, h')
      /\ r <> 1 /\ h' !! r = Some (ResultObj (ResultErr (VStr "second")))).
Proof.
  intros h. destruct okOr_ok_round_trips as [HO HR].
  split.
  - exact (HO h 0 OptionNone (VStr "e") eq_refl).
  - exact (HR h 1 (ResultErr (VStr "first")) (VStr "second") eq_refl).
Defined.

(** X4: [unwrapErr()] and [expectErr(msg)] are the mirror of [unwrap()] and
    [expect(msg)]: they return the error of an [Err] and throw exactly on
    an [Ok], the message carrying the value of the [Ok] as a string, after
    [msg] and a colon for [expectErr]. *)
Theorem unwrapErr_expectErr_return_or_throw :
  forall (h : heap) (this : loc) (i : ResultInit) (message : string),
    h !! this = Some (ResultObj i) ->
    match i with
    | ResultErr e =>
        Result_unwrapErr this h = (Normal e, h)
        /\ Result_expectErr this message h = (Normal e, h)
    | ResultOk v =>
        Result_unwrapErr this h = (Throw (Error (to_string h v)), h)
        /\ Result_expectErr this message h
           = (Throw (Error (message +:+ ": " +:+ to_string h v)), h)
    end.
Proof. intros h this [e|v] message H; split; by run. Qed.

Lemma unwrapErr_expectErr_return_or_throw_witness :
  let h := [ResultObj (ResultOk (VArr [VNum 1; VNull; VBool true]))] in
  Result_unwrapErr 0 h = (Throw (Error "1,,true"), h)
  /\ Result_expectErr 0 "no error" h = (Throw (Error "no error: 1,,true"), h).
Proof.
  intros h.
  exact (unwrapErr_expectErr_return_or_throw h 0
           (ResultOk (VArr [VNum 1; VNull; VBool true])) "no error" eq_refl).
Defined.

(** ** Callbacks are run only when their answer is needed *)

(** X5: an [Option] runs a callback only on the variant that needs it.  On
    a [Some(v)] the fallbacks of [unwrapOrElse], [okOrElse], [mapOrElse],
    [orElse] and [getOrInsertWith] are not run: the outcome is the same
    whatever fallback is passed, one that throws included.  On a [None] the
    callbacks of [map], [filter], [andThen], [mapOr] and [zipWith] are not
    run; nor is the one of [zipWith] when [other] is a [None]. *)
Theorem Option_runs_no_needless_callback :
  forall (h : heap) (this : loc) (i : OptionInit),
    h !! this = Some (OptionObj i) ->
    match i with
    | OptionSome v =>
        (forall f, Option_unwrapOrElse this f h = (Normal v, h))
        /\ (forall f, Option_okOrElse this f h
                      = (Normal (length h), h ++ [ResultObj (ResultOk v)]))
        /\ (forall f g, Option_mapOrElse this f g h = g v h)
        /\ (forall f, Option_orElse this f h = (Normal this, h))
        /\ (forall f, Option_getOrInsertWith this f h = (Normal v, h))
        /\ (forall other f, h !! other = Some (OptionObj OptionNone) ->
              Option_zipWith this other f h
              = (Normal (length h), h ++ [OptionObj OptionNone]))
    | OptionNone =>
        (forall f, Option_map this f h
                   = (Normal (length h), h ++ [OptionObj OptionNone]))
        /\ (forall p, Option_filter this p h
                      = (Normal (length h), h ++ [OptionObj OptionNone]))
        /\ (forall f, Option_andThen this f h = (Normal this, h))
        /\ (forall d f, Option_mapOr this d f h = (Normal d, h))
        /\ (forall other f, Option_zipWith this other f h
                            = (Normal (length h), h ++ [OptionObj OptionNone]))
    end.
Proof.
  intros h this [|v] H; repeat split; intros; by run.
Qed.

(** A fallback that throws is passed to a [Some(1)]: nothing is thrown. *)
Lemma Option_runs_no_needless_callback_witness :
  let h := [OptionObj (OptionSome (VNum 1))] in
  Option_unwrapOrElse 0 (throw (Error "fallback")) h = (Normal (VNum 1), h)
  /\ Option_getOrInsertWith 0 (throw (Error "fallback")) h = (Normal (VNum 1), h)
  /\ Option_orElse 0 (throw (Error "fallback")) h = (Normal 0, h).
Proof.
  intros h.
  pose proof (Option_runs_no_needless_callback h 0 (OptionSome (VNum 1)) eq_refl)
    as (H1 & _ & _ & H4 & H5 & _).
  split; [apply H1 | split; [apply H5 | apply H4]].
Defined.

(** X6: a [Result] runs a callback only on the variant that needs it.  On
    an [Ok(v)], [unwrapOrElse], [mapErr], [orElse] and the error side of
    [mapOrElse] run nothing; on an [Err(e)], [map], [andThen], [mapOr] and
    the value side of [mapOrElse] run nothing, and the fallbacks of
    [unwrapOrElse] and [mapOrElse] are given the error [e]. *)
Theorem Result_runs_no_needless_callback :
  forall (h : heap) (this : loc) (i : ResultInit),
    h !! this = Some (ResultObj i) ->
    match i with
    | ResultOk v =>
        (forall f, Result_unwrapOrElse this f h = (Normal v, h))
        /\ (forall f, Result_mapErr this f h
                      = (Normal (length h), h ++ [ResultObj (ResultOk v)]))
        /\ (forall f, Result_orElse this f h = (Normal this, h))
        /\ (forall f0 f1, Result_mapOrElse this f0 f1 h = f1 v h)
    | ResultErr e =>
        (forall f, Result_map this f h
                   = (Normal (length h), h ++ [ResultObj (ResultErr e)]))
        /\ (forall f, Result_andThen this f h = (Normal this, h))
        /\ (forall d f, Result_mapOr this d f h = (Normal d, h))
        /\ (forall f0 f1, Result_mapOrElse this f0 f1 h = f0 e h)
        /\ (forall f, Result_unwrapOrElse this f h = f e h)
    end.
Proof.
  intros h this [e|v] H; repeat split; intros; by run.
Qed.

Lemma Result_runs_no_needless_callback_witness :
  let h := [ResultObj (ResultErr (VStr "e"))] in
  Result_map 0 (fun _ => throw (Error "mapper")) h
  = (Normal 1, h ++ [ResultObj (ResultErr (VStr "e"))])
  /\ Result_unwrapOrElse 0 (fun e => ret (VArr [e])) h = (Normal (VArr [VStr "e"]), h).
Proof.
  intros h.
  pose proof (Result_runs_no_needless_callback h 0 (ResultErr (VStr "e")) eq_refl)
    as (H1 & _ & _ & _ & H5).
  split; [apply H1 | apply H5].
Defined.

(** ** How the methods compose *)

(** X7: [andThen] is associative, in both classes and for every pair of
    callbacks, whatever they do to the store:
    [c.andThen(f).andThen(g)] and [c.andThen(x => f(x).andThen(g))] return
    the same reference and leave the same store. *)
Theorem andThen_is_associative :
  forall (h : heap) (this : loc) (f g : val -> M loc),
    (r <- Option_andThen this f;; Option_andThen r g) h
    = Option_andThen this (fun x => r <- f x;; Option_andThen r g) h
    /\ (r <- Result_andThen this f;; Result_andThen r g) h
       = Result_andThen this (fun x => r <- f x;; Result_andThen r g) h.
Proof.
  intros h this f g. split.
  - unfold Option_andThen, bind, Option_internal, ret.
    destruct (h !! this) as [[[|v]| |]|] eqn:H; try done.
    cbv beta iota. by rewrite H.
  - unfold Result_andThen, bind, Result_internal, ret.
    destruct (h !! this) as [[|[e|v]|]|] eqn:H; try done.
    cbv beta iota. by rewrite H.
Qed.

(** X8: [zip] is [zipWith] with the function that makes a pair: the two
    calls return the same and leave the same store.  The new option holds
    the pair of the two payloads when both operands are a [Some], and is a
    [None] when either is not. *)
Theorem zip_is_zipWith_of_pairing :
  (forall (h : heap) (this other : loc),
      Option_zip this other h
      = Option_zipWith this other (fun a b => ret (VArr [a; b])) h)
  /\ (forall (h : heap) (this other : loc) (i j : OptionInit),
      h !! this = Some (OptionObj i) ->
      h !! other = Some (OptionObj j) ->
      Option_zip this other h
      = (Normal (length h),
         h ++ [OptionObj (match i, j with
                          | OptionSome v, OptionSome w => OptionSome (VArr [v; w])
                          | _, _ => OptionNone
                          end)])).
Proof.
  split.
  - intros h this other. unfold Option_zip, Option_zipWith, Option_unwrap.
    unfold bind, Option_internal, ret.
    by destruct (h !! this) as [[[|v]| |]|].
  - intros h this other i j Hi Hj.
    destruct i, j; by run.
Qed.

Lemma zip_is_zipWith_of_pairing_witness :
  let h := [OptionObj (OptionSome (VNum 1)); OptionObj (OptionSome (VStr "a"));
            OptionObj OptionNone] in
  Option_zip 0 1 h = (Normal 3, h ++ [OptionObj (OptionSome (VArr [VNum 1; VStr "a"]))])
  /\ Option_zip 0 2 h = (Normal 3, h ++ [OptionObj OptionNone])
  /\ Option_zip 0 0 h = (Normal 3, h ++ [OptionObj (OptionSome (VArr [VNum 1; VNum 1]))]).
Proof.
  intros h. destruct zip_is_zipWith_of_pairing as [_ Hzip].
  split; [|split].
  - exact (Hzip h 0 1 _ _ eq_refl eq_refl).
  - exact (Hzip h 0 2 _ _ eq_refl eq_refl).
  - exact (Hzip h 0 0 _ _ eq_refl eq_refl).
Defined.

(** X9: [mapOr(d, f)] returns what [map(f).unwrapOr(d)] returns, or throws
    what it throws, in both classes and for every callback: the two differ
    only by the container that [map] makes on the way. *)
Theorem mapOr_is_map_then_unwrapOr :
  forall (h : heap) (this : loc) (d : val) (f : val -> M val),
    (Option_mapOr this d f h).1
    = ((x <- Option_map this f;; Option_unwrapOr x d) h).1
    /\ (Result_mapOr this d f h).1
       = ((x <- Result_map this f;; Result_unwrapOr x d) h).1.
Proof.
  intros h this d f. split.
  - unfold Option_mapOr, Option_map, Option_unwrapOr, Option_new, alloc.
    unfold bind, Option_internal, ret.
    destruct (h !! this) as [[[|v]| |]|]; try done.
    + by rewrite lookup_alloc.
    + destruct (f v h) as [[r|e] h1]; [|done]. by rewrite lookup_alloc.
  - unfold Result_mapOr, Result_map, Result_unwrapOr, Result_new, alloc.
    unfold bind, Result_internal, ret.
    destruct (h !! this) as [[|[e|v]|]|]; try done.
    + by rewrite lookup_alloc.
    + destruct (f v h) as [[r|e] h1]; [|done]. by rewrite lookup_alloc.
Qed.

(** X10: mapping with the identity copies an [Option]: [opt.map(x => x)] is
    a new container, not [opt] itself, that holds what [opt] holds, and
    [opt] is left as it was. *)
Theorem map_identity :
  forall (h : heap) (opt : loc) (i : OptionInit),
    h !! opt = Some (OptionObj i) ->
    exists l h',
      Option_map opt (pure_fn (fun x => x)) h = (Normal l, h')
      /\ l <> opt /\ h !! l = None
      /\ h' !! l = Some (OptionObj i) /\ h' !! opt = Some (OptionObj i).
Proof.
  intros h opt i H. pose proof (lookup_lt_Some _ _ _ H) as Hlt.
  eexists _, _. split; [by apply Option_map_pure_at|].
  split; [lia|]. split; [by apply lookup_ge_None_2|].
  rewrite lookup_alloc, (lookup_app_l_Some _ _ _ _ H). by destruct i.
Qed.

Lemma map_identity_witness :
  let h := [OptionObj (OptionSome (VNum 7))] in
  exists l h',
    Option_map 0 (pure_fn (fun x => x)) h = (Normal l, h')
    /\ l <> 0 /\ h !! l = None
    /\ h' !! l = Some (OptionObj (OptionSome (VNum 7)))
    /\ h' !! 0 = Some (OptionObj (OptionSome (VNum 7))).
Proof. intros h. exact (map_identity h 0 (OptionSome (VNum 7)) eq_refl). Defined.

(** X11: on a [Result], [map] rewrites the value of an [Ok] and [mapErr]
    the error of an [Err], each leaving the other variant's payload alone;
    so the two commute: [r.map(f).mapErr(g)] and [r.mapErr(g).map(f)] hold
    the same, [Ok(f(v))] or [Err(g(e))]. *)
Theorem Result_map_and_mapErr_commute :
  forall (h : heap) (this : loc) (i : ResultInit) (f g : val -> val),
    h !! this = Some (ResultObj i) ->
    exists l1 h1 l2 h2,
      (a <- Result_map this (pure_fn f);; Result_mapErr a (pure_fn g)) h = (Normal l1, h1)
      /\ (a <- Result_mapErr this (pure_fn g);; Result_map a (pure_fn f)) h = (Normal l2, h2)
      /\ h1 !! l1 = h2 !! l2
      /\ h2 !! l2 = Some (ResultObj (match i with
                                     | ResultOk v => ResultOk (f v)
                                     | ResultErr e => ResultErr (g e)
                                     end)).
Proof.
  intros h this i f g H.
  destruct i as [e|v];
    exists (length h + 1); eexists; exists (length h + 1); eexists;
    (split; [by run|]); (split; [by run|]);
    by rewrite !lookup_fresh.
Qed.

Lemma Result_map_and_mapErr_commute_witness :
  let h := [ResultObj (ResultErr (VStr "e"))] in
  let f := fun x => VArr [x] in
  let g := fun x => VArr [x; x] in
  exists l1 h1 l2 h2,
    (a <- Result_map 0 (pure_fn f);; Result_mapErr a (pure_fn g)) h = (Normal l1, h1)
    /\ (a <- Result_mapErr 0 (pure_fn g);; Result_map a (pure_fn f)) h = (Normal l2, h2)
    /\ h1 !! l1 = h2 !! l2
    /\ h2 !! l2 = Some (ResultObj (ResultErr (VArr [VStr "e"; VStr "e"]))).
Proof.
  intros h f g.
  exact (Result_map_and_mapErr_commute h 0 (ResultErr (VStr "e")) f g eq_refl).
Defined.

Lemma Option_filter_pure_at (h : heap) this i (p : val -> bool) :
  h !! this = Some (OptionObj i) ->
  Option_filter this (pure_pred p) h
  = (Normal (length h), h ++ [OptionObj (filtered p i)]).
Proof.
  intros H. destruct i as [|v]; [by run|].
  unfold Option_filter, pure_pred. run. destruct (p v) eqn:Hp; run; cbn [filtered];
    by rewrite Hp.
Qed.

(** X12: [filter] always makes a new container: a copy of a [Some] whose
    payload the predicate accepts, a [None] otherwise.  Filtering twice is
    filtering by both predicates: [opt.filter(p).filter(q)] holds what
    [opt.filter(x => p(x) && q(x))] holds. *)
Theorem filter_twice_is_filter_by_both :
  forall (h : heap) (opt : loc) (i : OptionInit) (p q : val -> bool),
    h !! opt = Some (OptionObj i) ->
    exists l1 h1 l2 h2,
      (a <- Option_filter opt (pure_pred p);; Option_filter a (pure_pred q)) h
      = (Normal l1, h1)
      /\ Option_filter opt (pure_pred (fun x => p x && q x)) h = (Normal l2, h2)
      /\ l2 <> opt /\ h2 !! opt = Some (OptionObj i)
      /\ h1 !! l1 = h2 !! l2
      /\ h2 !! l2 = Some (OptionObj (filtered (fun x => p x && q x) i)).
Proof.
  intros h opt i p q H. pose proof (lookup_lt_Some _ _ _ H) as Hlt.
  eexists _, _, _, _.
  split; [|split; [by apply Option_filter_pure_at|]].
  - rewrite (bind_Normal _ _ _ _ _ (Option_filter_pure_at h opt i p H)).
    apply Option_filter_pure_at, lookup_alloc.
  - split; [lia|]. split; [by apply lookup_app_l_Some|].
    rewrite !lookup_alloc. split; [|done].
    destruct i as [|v]; [done|]. cbn [filtered].
    destruct (p v); cbn [filtered andb]; [by destruct (q v) | done].
Qed.

Lemma filter_twice_is_filter_by_both_witness :
  let h := [OptionObj (OptionSome (VBool true))] in
  let p := fun x => match x with VBool b => b | _ => false end in
  let q := fun x => match x with VBool b => negb b | _ => true end in
  exists l1 h1 l2 h2,
    (a <- Option_filter 0 (pure_pred p);; Option_filter a (pure_pred q)) h
    = (Normal l1, h1)
    /\ Option_filter 0 (pure_pred (fun x => p x && q x)) h = (Normal l2, h2)
    /\ l2 <> 0 /\ h2 !! 0 = Some (OptionObj (OptionSome (VBool true)))
    /\ h1 !! l1 = h2 !! l2
    /\ h2 !! l2 = Some (OptionObj OptionNone).
Proof.
  intros h p q.
  exact (filter_twice_is_filter_by_both h 0 (OptionSome (VBool true)) p q eq_refl).
Defined.

(** ** Nesting *)

Lemma Option_flatten_nested (h : heap) this inner j :
  h !! this = Some (OptionObj (OptionSome (VRef inner))) ->
  h !! inner = Some (OptionObj j) ->
  Option_flatten this h = (Normal (length h), h ++ [OptionObj j]).
Proof. intros H Hinner. destruct j; by run. Qed.

Lemma Option_flatten_foreign (h : heap) this v :
  h !! this = Some (OptionObj (OptionSome v)) ->
  instanceof_Option v h = (Normal None, h) ->
  Option_flatten this h
  = (Throw (Error "Called `flatten` on a non-nested `Some` value."), h).
Proof.
  intros H Hv. unfold Option_flatten.
  rewrite (bind_Normal (Option_internal this) _ h (OptionSome v) h)
    by (unfold Option_internal; by rewrite H).
  by rewrite (bind_Normal _ _ _ _ _ Hv).
Qed.

Lemma instanceof_Option_cases (h : heap) v :
  (exists l j, v = VRef l /\ h !! l = Some (OptionObj j))
  \/ instanceof_Option v h = (Normal None, h).
Proof.
  unfold instanceof_Option. destruct v as [| | | | | |l]; try by right.
  destruct (h !! l) as [[j| |]|] eqn:Hl; try by right.
  left. by exists l, j.
Qed.

(** X13: [flatten] removes one level of nesting into a new container: a
    [None] gives a [None], a [Some] of an option gives a copy of that
    option, and the inner option is left as it was.  It throws exactly when
    the receiver is a [Some] whose payload is no [Option], and then leaves
    the store as it was. *)
Theorem flatten_removes_one_level :
  forall (h : heap) (this : loc) (i : OptionInit),
    h !! this = Some (OptionObj i) ->
    (i = OptionNone ->
       Option_flatten this h = (Normal (length h), h ++ [OptionObj OptionNone]))
    /\ (forall inner j,
          i = OptionSome (VRef inner) -> h !! inner = Some (OptionObj j) ->
          Option_flatten this h = (Normal (length h), h ++ [OptionObj j]))
    /\ ((exists e h', Option_flatten this h = (Throw e, h'))
        <-> exists v, i = OptionSome v /\ instanceof_Option v h = (Normal None, h))
    /\ (forall e h', Option_flatten this h = (Throw e, h') ->
          e = Error "Called `flatten` on a non-nested `Some` value." /\ h' = h).
Proof.
  intros h this i H.
  assert (Hthrow : forall e h', Option_flatten this h = (Throw e, h') ->
            exists v, i = OptionSome v /\ instanceof_Option v h = (Normal None, h)).
  { intros e h' Hrun. destruct i as [|v]; [revert Hrun; by run|].
    exists v. split; [done|].
    destruct (instanceof_Option_cases h v) as [(l & j & -> & Hl)|Hv]; [|done].
    by rewrite (Option_flatten_nested h this l j H Hl) in Hrun. }
  split; [|split; [|split]].
  - intros ->. by run.
  - intros inner j -> Hinner. by apply (Option_flatten_nested h this inner j).
  - split; [intros (e & h' & Hrun); by eapply Hthrow|].
    intros (v & -> & Hv). eexists _, _. by apply (Option_flatten_foreign h this v).
  - intros e h' Hrun. destruct (Hthrow e h' Hrun) as (v & -> & Hv).
    rewrite (Option_flatten_foreign h this v H Hv) in Hrun. by inversion Hrun.
Qed.

(** [Some(Some(1))] is flattened to a copy of the inner [Some(1)];
    [Some(1)] cannot be flattened. *)
Lemma flatten_removes_one_level_witness :
  let h := [OptionObj (OptionSome (VNum 1)); OptionObj (OptionSome (VRef 0))] in
  Option_flatten 1 h = (Normal 2, h ++ [OptionObj (OptionSome (VNum 1))])
  /\ exists e h', Option_flatten 0 h = (Throw e, h').
Proof.
  intros h. split.
  - exact (proj1 (proj2 (flatten_removes_one_level h 1 _ eq_refl)) 0 _ eq_refl eq_refl).
  - apply (proj1 (proj2 (proj2 (flatten_removes_one_level h 0 _ eq_refl)))).
    exists (VNum 1). split; reflexivity.
Defined.

(** X14: [andThen] is [map] followed by [flatten].  When the callback
    returns an option, [opt.andThen(f)] is that very option, and
    [opt.map(f).flatten()] is a new container that holds what it holds; on a
    [None] both are a [None]; when the callback throws, both throw the same
    and leave the same store. *)
Theorem andThen_is_map_then_flatten :
  forall (h : heap) (this : loc) (i : OptionInit) (f : val -> M loc),
    h !! this = Some (OptionObj i) ->
    let map_flatten :=
      (m <- Option_map this (fun x => r <- f x;; ret (VRef r));; Option_flatten m) in
    match i with
    | OptionNone =>
        Option_andThen this f h = (Normal this, h)
        /\ map_flatten h
           = (Normal (length h + 1), h ++ [OptionObj OptionNone; OptionObj OptionNone])
    | OptionSome v =>
        (forall e h1, f v h = (Throw e, h1) ->
           Option_andThen this f h = (Throw e, h1) /\ map_flatten h = (Throw e, h1))
        /\ (forall r h1 j,
              f v h = (Normal r, h1) -> h1 !! r = Some (OptionObj j) ->
              Option_andThen this f h = (Normal r, h1)
              /\ map_flatten h
                 = (Normal (length h1 + 1),
                    h1 ++ [OptionObj (OptionSome (VRef r)); OptionObj j]))
    end.
Proof.
  intros h this i f H map_flatten. subst map_flatten.
  destruct i as [|v]; [split; by run|].
  split.
  - intros e h1 Hf. split; run; by rewrite Hf.
  - intros r h1 j Hf Hr. split; [run; by rewrite Hf|].
    unfold Option_map.
    rewrite (bind_Normal (bind (Option_internal this) _) _ h (length h1)
               (h1 ++ [OptionObj (OptionSome (VRef r))])).
    + rewrite (Option_flatten_nested _ (length h1) r j).
      * by rewrite length_app, <- app_assoc.
      * apply lookup_alloc.
      * by apply lookup_app_l_Some.
    + run. by rewrite Hf.
Qed.

Lemma andThen_is_map_then_flatten_witness :
  let h := [OptionObj (OptionSome (VNum 1))] in
  let f := fun x => Option_Some (VArr [x]) in
  Option_andThen 0 f h = (Normal 1, h ++ [OptionObj (OptionSome (VArr [VNum 1]))])
  /\ (m <- Option_map 0 (fun x => r <- f x;; ret (VRef r));; Option_flatten m) h
     = (Normal 3,
        (h ++ [OptionObj (OptionSome (VArr [VNum 1]))])
        ++ [OptionObj (OptionSome (VRef 1)); OptionObj (OptionSome (VArr [VNum 1]))]).
Proof.
  intros h f.
  exact (proj2 (andThen_is_map_then_flatten h 0 (OptionSome (VNum 1)) f eq_refl)
           1 (h ++ [OptionObj (OptionSome (VArr [VNum 1]))])
           (OptionSome (VArr [VNum 1])) eq_refl eq_refl).
Defined.

Lemma Result_transpose_throws (h : heap) this i :
  h !! this = Some (ResultObj i) ->
  (exists e h', Result_transpose this h = (Throw e, h'))
  <-> exists v, i = ResultOk v /\ instanceof_Option v h = (Normal None, h).
Proof.
  intros H. split.
  - intros (e & h' & Hrun). destruct i as [e0|v]; [by rewrite (Result_transpose_Err h this e0 H) in Hrun|].
    exists v. split; [done|].
    destruct (instanceof_Option_cases h v) as [(l & j & -> & Hl)|Hv]; [|done].
    destruct j.
    + by rewrite (Result_transpose_Ok_None h this l H Hl) in Hrun.
    + by rewrite (Result_transpose_Ok_Some h this l _ H Hl) in Hrun.
  - intros (v & -> & Hv). eexists _, _. unfold Result_transpose.
    rewrite (bind_Normal (Result_internal this) _ h (ResultOk v) h)
      by (unfold Result_internal; by rewrite H).
    by rewrite (bind_Normal _ _ _ _ _ Hv).
Qed.

(** X15: [transpose] throws exactly when the payload is not a container of
    the other class: on an [Option], when it is a [Some] whose payload is
    no [Result]; on a [Result], when it is an [Ok] whose payload is no
    [Option].  A [None] and an [Err] are always transposed. *)
Theorem transpose_throws_exactly_on_a_foreign_payload :
  (forall (h : heap) (this : loc) (i : OptionInit),
      h !! this = Some (OptionObj i) ->
      (exists e h', Option_transpose this h = (Throw e, h'))
      <-> exists v, i = OptionSome v /\ instanceof_Result v h = (Normal None, h))
  /\ (forall (h : heap) (this : loc) (i : ResultInit),
      h !! this = Some (ResultObj i) ->
      (exists e h', Result_transpose this h = (Throw e, h'))
      <-> exists v, i = ResultOk v /\ instanceof_Option v h = (Normal None, h)).
Proof.
  split; intros h this i H;
    [by apply Option_transpose_throws | by apply Result_transpose_throws].
Qed.

(** An [Ok] of a number and a [Some] of an option: neither can be
    transposed. *)
Lemma transpose_throws_exactly_on_a_foreign_payload_witness :
  let h := [ResultObj (ResultOk (VNum 1)); OptionObj (OptionSome (VRef 1))] in
  (exists e h', Result_transpose 0 h = (Throw e, h'))
  /\ (exists e h', Option_transpose 1 h = (Throw e, h')).
Proof.
  intros h. destruct transpose_throws_exactly_on_a_foreign_payload as [HO HR].
  split.
  - apply (proj2 (HR h 0 _ eq_refl)). exists (VNum 1). split; reflexivity.
  - apply (proj2 (HO h 1 _ eq_refl)). exists (VRef 1). split; reflexivity.
Defined.

(** ** Sharing and the in-place methods *)

(** X16: [and], [or], [andThen] and [orElse] make no container when they
    do not run their callback: they return one of their operands itself.
    The reference returned by [a.or(b)] on a [Some] is [a], so taking the
    value out through it empties [a]; the one returned by [a.and(b)] is
    [b], so taking through it empties [b]. *)
Theorem or_and_share_their_operands :
  forall (h : heap) (this other : loc) (v : val) (j : OptionInit),
    h !! this = Some (OptionObj (OptionSome v)) ->
    h !! other = Some (OptionObj j) ->
    this <> other ->
    Option_or this other h = (Normal this, h)
    /\ Option_and this other h = (Normal other, h)
    /\ (exists t h',
          (x <- Option_or this other;; t <- Option_take x;; ret t) h = (Normal t, h')
          /\ h' !! this = Some (OptionObj OptionNone)
          /\ h' !! other = Some (OptionObj j)
          /\ h' !! t = Some (OptionObj (OptionSome v)))
    /\ (exists t h',
          (x <- Option_and this other;; t <- Option_take x;; ret t) h = (Normal t, h')
          /\ h' !! this = Some (OptionObj (OptionSome v))
          /\ h' !! other = Some (OptionObj OptionNone)
          /\ h' !! t = Some (OptionObj j)).
Proof.
  intros h this other v j H Hother Hne.
  pose proof (lookup_lt_Some _ _ _ H) as Hlt.
  pose proof (lookup_lt_Some _ _ _ Hother) as Hlt'.
  split; [by run|]. split; [by run|]. split.
  - exists (length h). eexists. split.
    + rewrite (bind_Normal (Option_or this other) _ h this h) by (by run).
      by rewrite (bind_Normal _ _ _ _ _ (Option_take_at h this _ H)).
    + destruct (moved_out h this (OptionObj (OptionSome v)) (OptionObj OptionNone) Hlt)
        as (_ & _ & Ht & Hthis).
      split; [done|]. split; [|done].
      apply lookup_app_l_Some. by rewrite list_lookup_insert_ne.
  - exists (length h). eexists. split.
    + rewrite (bind_Normal (Option_and this other) _ h other h) by (by run).
      by rewrite (bind_Normal _ _ _ _ _ (Option_take_at h other _ Hother)).
    + destruct (moved_out h other (OptionObj j) (OptionObj OptionNone) Hlt')
        as (_ & _ & Ht & Hthis).
      split; [|done].
      apply lookup_app_l_Some. by rewrite list_lookup_insert_ne.
Qed.

Lemma or_and_share_their_operands_witness :
  let h := [OptionObj (OptionSome (VNum 1)); OptionObj (OptionSome (VNum 2))] in
  Option_or 0 1 h = (Normal 0, h)
  /\ Option_and 0 1 h = (Normal 1, h)
  /\ (exists t h',
        (x <- Option_or 0 1;; t <- Option_take x;; ret t) h = (Normal t, h')
        /\ h' !! 0 = Some (OptionObj OptionNone)
        /\ h' !! 1 = Some (OptionObj (OptionSome (VNum 2)))
        /\ h' !! t = Some (OptionObj (OptionSome (VNum 1))))
  /\ (exists t h',
        (x <- Option_and 0 1;; t <- Option_take x;; ret t) h = (Normal t, h')
        /\ h' !! 0 = Some (OptionObj (OptionSome (VNum 1)))
        /\ h' !! 1 = Some (OptionObj OptionNone)
        /\ h' !! t = Some (OptionObj (OptionSome (VNum 2)))).
Proof.
  intros h.
  refine (or_and_share_their_operands h 0 1 (VNum 1) (OptionSome (VNum 2))
            eq_refl eq_refl _).
  discriminate.
Defined.

Lemma Option_insert_at (h : heap) this i v :
  h !! this = Some (OptionObj i) ->
  Option_insert this v h = (Normal v, <[this := OptionObj (OptionSome v)]> h).
Proof.
  intros H. pose proof (lookup_lt_Some _ _ _ H) as Hlt.
  destruct i; run; by rewrite list_lookup_insert_eq.
Qed.

Lemma Option_getOrInsert_at (h : heap) this i v :
  h !! this = Some (OptionObj i) ->
  Option_getOrInsert this v h
  = match i with
    | OptionSome u => (Normal u, h)
    | OptionNone => (Normal v, <[this := OptionObj (OptionSome v)]> h)
    end.
Proof.
  intros H. pose proof (lookup_lt_Some _ _ _ H) as Hlt.
  destruct i; run; [by rewrite list_lookup_insert_eq | done].
Qed.

(** X17: [insert(v)] overwrites and [getOrInsert(v)] only fills a gap.
    After [o.insert(v)], [o.getOrInsert(w)] and [o.unwrap()] both give [v].
    Two calls of [getOrInsert] in a row give the same value twice: the one
    [o] held, or the first argument if [o] was a [None]; the second argument
    is never stored.  None of them makes a container. *)
Theorem insert_overwrites_getOrInsert_keeps :
  forall (h : heap) (this : loc) (i : OptionInit) (v w : val),
    h !! this = Some (OptionObj i) ->
    (a <- Option_insert this v;;
     b <- Option_getOrInsert this w;;
     c <- Option_unwrap this;;
     ret (a, b, c)) h
    = (Normal (v, v, v), <[this := OptionObj (OptionSome v)]> h)
    /\ (let x := match i with OptionSome u => u | OptionNone => v end in
        (a <- Option_getOrInsert this v;;
         b <- Option_getOrInsert this w;;
         ret (a, b)) h
        = (Normal (x, x), <[this := OptionObj (OptionSome x)]> h))
    /\ Option_getOrInsertWith this (ret v) h = Option_getOrInsert this v h.
Proof.
  intros h this i v w H. pose proof (lookup_lt_Some _ _ _ H) as Hlt.
  assert (Hset : forall u, <[this := OptionObj (OptionSome u)]> h !! this
                           = Some (OptionObj (OptionSome u))).
  { intros u. by apply list_lookup_insert_eq. }
  split; [|split].
  - rewrite (bind_Normal _ _ _ _ _ (Option_insert_at h this i v H)).
    rewrite (bind_Normal _ _ _ _ _ (Option_getOrInsert_at _ this _ w (Hset v))).
    by rewrite (bind_Normal _ _ _ _ _ (Option_unwrap_Some _ this v (Hset v))).
  - cbv zeta. destruct i as [|u].
    + rewrite (bind_Normal _ _ _ _ _ (Option_getOrInsert_at h this _ v H)).
      by rewrite (bind_Normal _ _ _ _ _ (Option_getOrInsert_at _ this _ w (Hset v))).
    + rewrite (bind_Normal _ _ _ _ _ (Option_getOrInsert_at h this _ v H)).
      rewrite (bind_Normal _ _ _ _ _ (Option_getOrInsert_at h this _ w H)).
      by rewrite list_insert_id.
  - by run.
Qed.

Lemma insert_overwrites_getOrInsert_keeps_witness :
  let h := [OptionObj (OptionSome (VNum 1))] in
  (a <- Option_insert 0 (VNum 2);;
   b <- Option_getOrInsert 0 (VNum 3);;
   c <- Option_unwrap 0;;
   ret (a, b, c)) h
  = (Normal (VNum 2, VNum 2, VNum 2), [OptionObj (OptionSome (VNum 2))])
  /\ (a <- Option_getOrInsert 0 (VNum 2);;
      b <- Option_getOrInsert 0 (VNum 3);;
      ret (a, b)) h
     = (Normal (VNum 1, VNum 1), [OptionObj (OptionSome (VNum 1))]).
Proof.
  intros h.
  pose proof (insert_overwrites_getOrInsert_keeps h 0 (OptionSome (VNum 1))
                (VNum 2) (VNum 3) eq_refl) as (H1 & H2 & _).
  split; [exact H1 | exact H2].
Defined.

(** X18: [replace(v)] is [take()] followed by [insert(v)]: the two return a
    new container that holds what the receiver held, at the same reference,
    and leave the same store, the receiver a [Some(v)]. *)
Theorem replace_is_take_then_insert :
  forall (h : heap) (this : loc) (i : OptionInit) (v : val),
    h !! this = Some (OptionObj i) ->
    Option_replace this v h
    = (t <- Option_take this;; Option_insert this v;;; ret t) h.
Proof.
  intros h this i v H. pose proof (lookup_lt_Some _ _ _ H) as Hlt.
  rewrite (Option_replace_at h this i v H).
  rewrite (bind_Normal _ _ _ _ _ (Option_take_at h this i H)).
  assert (Htaken : (<[this := OptionObj OptionNone]> h ++ [OptionObj i]) !! this
                   = Some (OptionObj OptionNone)).
  { apply lookup_app_l_Some. by apply list_lookup_insert_eq. }
  rewrite (bind_Normal _ _ _ _ _ (Option_insert_at _ this _ v Htaken)).
  unfold ret. f_equal.
  rewrite insert_app_l by (rewrite length_insert; lia).
  by rewrite list_insert_insert_eq.
Qed.

Lemma replace_is_take_then_insert_witness :
  let h := [OptionObj (OptionSome (VNum 1))] in
  Option_replace 0 (VNum 2) h
  = (t <- Option_take 0;; Option_insert 0 (VNum 2);;; ret t) h
  /\ Option_replace 0 (VNum 2) h
     = (Normal 1, [OptionObj (OptionSome (VNum 2)); OptionObj (OptionSome (VNum 1))]).
Proof.
  intros h. split; [|reflexivity].
  exact (replace_is_take_then_insert h 0 (OptionSome (VNum 1)) (VNum 2) eq_refl).
Defined.

(** ** Iterating *)

Lemma Generator_next_Option_start (h : heap) g this i :
  h !! g = Some (GeneratorObj (OptionIterStart this)) ->
  h !! this = Some (OptionObj i) ->
  Generator_next g h
  = match i with
    | OptionSome v =>
        (Normal {| value := v; done := false |}, <[g := GeneratorObj IterYielded]> h)
    | OptionNone =>
        (Normal {| value := VUndefined; done := true |}, <[g := GeneratorObj IterDone]> h)
    end.
Proof.
  intros Hg H. assert (g <> this) by congruence.
  unfold Generator_next, Generator_state, Generator_set_state, Option_internal, bind, ret.
  rewrite Hg. cbv beta iota. rewrite list_lookup_insert_ne, H by done.
  destruct i; [done|]. by rewrite list_insert_insert_eq.
Qed.

Lemma Generator_next_Result_start (h : heap) g this i :
  h !! g = Some (GeneratorObj (ResultIterStart this)) ->
  h !! this = Some (ResultObj i) ->
  Generator_next g h
  = match i with
    | ResultOk v =>
        (Normal {| value := v; done := false |}, <[g := GeneratorObj IterYielded]> h)
    | ResultErr _ =>
        (Normal {| value := VUndefined; done := true |}, <[g := GeneratorObj IterDone]> h)
    end.
Proof.
  intros Hg H. assert (g <> this) by congruence.
  unfold Generator_next, Generator_state, Generator_set_state, Result_internal, bind, ret.
  rewrite Hg. cbv beta iota. rewrite list_lookup_insert_ne, H by done.
  destruct i; [done|]. by rewrite list_insert_insert_eq.
Qed.

Lemma Generator_next_yielded (h : heap) g :
  h !! g = Some (GeneratorObj IterYielded) ->
  Generator_next g h
  = (Normal {| value := VUndefined; done := true |}, <[g := GeneratorObj IterDone]> h).
Proof.
  intros Hg. unfold Generator_next, Generator_state, Generator_set_state, bind, ret.
  by rewrite Hg.
Qed.

Lemma Generator_next_done (h : heap) g :
  h !! g = Some (GeneratorObj IterDone) ->
  Generator_next g h = (Normal {| value := VUndefined; done := true |}, h).
Proof.
  intros Hg. unfold Generator_next, Generator_state, bind, ret. by rewrite Hg.
Qed.

(** A finished generator stays finished, however often it is asked. *)
Lemma Generator_nexts_done (h : heap) g n :
  h !! g = Some (GeneratorObj IterDone) ->
  Generator_nexts n g h
  = (Normal (replicate n {| value := VUndefined; done := true |}), h).
Proof.
  intros Hg. induction n as [|n IH]; [done|].
  cbn [Generator_nexts replicate].
  rewrite (bind_Normal _ _ _ _ _ (Generator_next_done h g Hg)).
  by rewrite (bind_Normal _ _ _ _ _ IH).
Qed.

Lemma insert_fresh (h : heap) (o o' : object) :
  <[length h := o']> (h ++ [o]) = h ++ [o'].
Proof. rewrite insert_app_r_alt by lia. by rewrite Nat.sub_diag. Qed.

(** After the first [next()] of a generator suspended at its [yield], every
    further call finds it finished. *)
Lemma Generator_nexts_after_yield (h : heap) n :
  Generator_nexts (S n) (length h) (h ++ [GeneratorObj IterYielded])
  = (Normal (replicate (S n) {| value := VUndefined; done := true |}),
     h ++ [GeneratorObj IterDone]).
Proof.
  cbn [Generator_nexts replicate].
  rewrite (bind_Normal _ _ _ _ _ (Generator_next_yielded _ _ (lookup_alloc h _))).
  rewrite insert_fresh.
  by rewrite (bind_Normal _ _ _ _ _ (Generator_nexts_done _ _ n (lookup_alloc h _))).
Qed.

(** X19: the generator of [intoIter()] yields at most once.  Made from a
    [Some(v)] or an [Ok(v)] it yields [v] at the first [next()]; made from a
    [None] or an [Err] it yields nothing; every further [next()], however
    many, reports the end.  The container iterated is left as it was. *)
Theorem intoIter_yields_at_most_once :
  (forall (h : heap) (this : loc) (i : OptionInit) (n : nat),
      h !! this = Some (OptionObj i) ->
      (g <- Option_intoIter this;; Generator_nexts (S (S n)) g) h
      = (Normal (match i with
                 | OptionSome v =>
                     {| value := v; done := false |}
                     :: replicate (S n) {| value := VUndefined; done := true |}
                 | OptionNone =>
                     replicate (S (S n)) {| value := VUndefined; done := true |}
                 end),
         h ++ [GeneratorObj IterDone]))
  /\ (forall (h : heap) (this : loc) (i : ResultInit) (n : nat),
      h !! this = Some (ResultObj i) ->
      (g <- Result_intoIter this;; Generator_nexts (S (S n)) g) h
      = (Normal (match i with
                 | ResultOk v =>
                     {| value := v; done := false |}
                     :: replicate (S n) {| value := VUndefined; done := true |}
                 | ResultErr _ =>
                     replicate (S (S n)) {| value := VUndefined; done := true |}
                 end),
         h ++ [GeneratorObj IterDone])).
Proof.
  split; intros h this i n H.
  - unfold Option_intoIter, alloc. unfold bind at 1.
    change (Generator_nexts (S (S n)) (length h))
      with (r <- Generator_next (length h);;
            rs <- Generator_nexts (S n) (length h);; ret (r :: rs)).
    pose proof (Generator_next_Option_start _ (length h) this i
                  (lookup_alloc h _) (lookup_app_l_Some _ _ _ _ H)) as Hfirst.
    rewrite !insert_fresh in Hfirst. destruct i as [|v].
    + rewrite (bind_Normal _ _ _ _ _ Hfirst).
      by rewrite (bind_Normal _ _ _ _ _
                    (Generator_nexts_done _ _ (S n) (lookup_alloc h _))).
    + rewrite (bind_Normal _ _ _ _ _ Hfirst).
      by rewrite (bind_Normal _ _ _ _ _ (Generator_nexts_after_yield h n)).
  - unfold Result_intoIter, alloc. unfold bind at 1.
    change (Generator_nexts (S (S n)) (length h))
      with (r <- Generator_next (length h);;
            rs <- Generator_nexts (S n) (length h);; ret (r :: rs)).
    pose proof (Generator_next_Result_start _ (length h) this i
                  (lookup_alloc h _) (lookup_app_l_Some _ _ _ _ H)) as Hfirst.
    rewrite !insert_fresh in Hfirst. destruct i as [e|v].
    + rewrite (bind_Normal _ _ _ _ _ Hfirst).
      by rewrite (bind_Normal _ _ _ _ _
                    (Generator_nexts_done _ _ (S n) (lookup_alloc h _))).
    + rewrite (bind_Normal _ _ _ _ _ Hfirst).
      by rewrite (bind_Normal _ _ _ _ _ (Generator_nexts_after_yield h n)).
Qed.

(** Four calls of [next()] on the generators of a [Some(7)] and of an
    [Err]. *)
Lemma intoIter_yields_at_most_once_witness :
  let h := [OptionObj (OptionSome (VNum 7)); ResultObj (ResultErr (VStr "e"))] in
  let finished := {| value := VUndefined; done := true |} in
  (g <- Option_intoIter 0;; Generator_nexts 4 g) h
  = (Normal [{| value := VNum 7; done := false |}; finished; finished; finished],
     h ++ [GeneratorObj IterDone])
  /\ (g <- Result_intoIter 1;; Generator_nexts 4 g) h
     = (Normal [finished; finished; finished; finished], h ++ [GeneratorObj IterDone]).
Proof.
  intros h finished. destruct intoIter_yields_at_most_once as [HO HR].
  split.
  - exact (HO h 0 (OptionSome (VNum 7)) 2 eq_refl).
  - exact (HR h 1 (ResultErr (VStr "e")) 2 eq_refl).
Defined.

(** X20: the generator looks at its container at the first [next()], not
    when [intoIter()] is called.  If the option is given a value in between,
    that value is yielded; if its value is taken out in between, nothing is
    yielded, whatever the option held when [intoIter()] was called. *)
Theorem intoIter_reads_the_container_at_the_first_next :
  forall (h : heap) (this : loc) (i : OptionInit) (v : val),
    h !! this = Some (OptionObj i) ->
    (g <- Option_intoIter this;; Option_insert this v;;; Generator_next g) h
    = (Normal {| value := v; done := false |},
       <[this := OptionObj (OptionSome v)]> h ++ [GeneratorObj IterYielded])
    /\ (g <- Option_intoIter this;; Option_take this;;; Generator_next g) h
       = (Normal {| value := VUndefined; done := true |},
          <[this := OptionObj OptionNone]> h ++ [GeneratorObj IterDone; OptionObj i]).
Proof.
  intros h this i v H. pose proof (lookup_lt_Some _ _ _ H) as Hlt.
  pose proof (lookup_app_l_Some _ [GeneratorObj (OptionIterStart this)] _ _ H) as H1.
  split.
  - rewrite (bind_Normal (Option_intoIter this) _ h (length h)
               (h ++ [GeneratorObj (OptionIterStart this)])) by reflexivity.
    rewrite (bind_Normal _ _ _ _ _ (Option_insert_at _ this i v H1)).
    rewrite insert_app_l by lia.
    rewrite <- (length_insert h this (OptionObj (OptionSome v))).
    rewrite (Generator_next_Option_start _ _ this (OptionSome v) (lookup_alloc _ _)).
    + by rewrite insert_fresh.
    + apply lookup_app_l_Some. by apply list_lookup_insert_eq.
  - rewrite (bind_Normal (Option_intoIter this) _ h (length h)
               (h ++ [GeneratorObj (OptionIterStart this)])) by reflexivity.
    rewrite (bind_Normal _ _ _ _ _ (Option_take_at _ this i H1)).
    rewrite insert_app_l by lia. rewrite <- app_assoc. cbn [app].
    rewrite <- (length_insert h this (OptionObj OptionNone)).
    rewrite (Generator_next_Option_start _ _ this OptionNone).
    + rewrite insert_app_r_alt by lia. by rewrite Nat.sub_diag.
    + by rewrite lookup_fresh_0.
    + apply lookup_app_l_Some. by apply list_lookup_insert_eq.
Qed.

Lemma intoIter_reads_the_container_at_the_first_next_witness :
  let h := [OptionObj OptionNone] in
  (g <- Option_intoIter 0;; Option_insert 0 (VNum 7);;; Generator_next g) h
  = (Normal {| value := VNum 7; done := false |},
     [OptionObj (OptionSome (VNum 7)); GeneratorObj IterYielded]).
Proof.
  intros h.
  exact (proj1 (intoIter_reads_the_container_at_the_first_next h 0 OptionNone
                  (VNum 7) eq_refl)).
Defined.

(** ** Boolean operators *)

(** X21: [and] and [or] follow the truth tables of their names, in both
    classes: [a.and(b)] is a [Some] (an [Ok]) exactly when both are, and
    [a.or(b)] exactly when one of them is.  They are [andThen] and [orElse]
    with a callback that returns [b] whatever it is given. *)
Theorem and_or_truth_tables :
  (forall (h : heap) (this other : loc) (i j : OptionInit),
      h !! this = Some (OptionObj i) ->
      h !! other = Some (OptionObj j) ->
      (x <- Option_and this other;; Option_isSome x) h
      = (Normal (is_Some_record i && is_Some_record j), h)
      /\ (x <- Option_or this other;; Option_isSome x) h
         = (Normal (is_Some_record i || is_Some_record j), h)
      /\ Option_and this other h = Option_andThen this (fun _ => ret other) h
      /\ Option_or this other h = Option_orElse this (ret other) h)
  /\ (forall (h : heap) (this other : loc) (i j : ResultInit),
      h !! this = Some (ResultObj i) ->
      h !! other = Some (ResultObj j) ->
      (x <- Result_and this other;; Result_isOk x) h
      = (Normal (is_Ok_record i && is_Ok_record j), h)
      /\ (x <- Result_or this other;; Result_isOk x) h
         = (Normal (is_Ok_record i || is_Ok_record j), h)
      /\ Result_and this other h = Result_andThen this (fun _ => ret other) h
      /\ Result_or this other h = Result_orElse this (fun _ => ret other) h).
Proof.
  split; intros h this other i j Hi Hj; destruct i, j; repeat split; by run.
Qed.

Lemma and_or_truth_tables_witness :
  let h := [OptionObj (OptionSome (VNum 1)); OptionObj OptionNone;
            ResultObj (ResultErr (VStr "e")); ResultObj (ResultOk (VNum 2))] in
  (x <- Option_and 0 1;; Option_isSome x) h = (Normal false, h)
  /\ (x <- Option_or 0 1;; Option_isSome x) h = (Normal true, h)
  /\ (x <- Result_and 2 3;; Result_isOk x) h = (Normal false, h)
  /\ (x <- Result_or 2 3;; Result_isOk x) h = (Normal true, h).
Proof.
  intros h. destruct and_or_truth_tables as [HO HR].
  destruct (HO h 0 1 _ _ eq_refl eq_refl) as (H1 & H2 & _).
  destruct (HR h 2 3 _ _ eq_refl eq_refl) as (H3 & H4 & _).
  split; [exact H1 | split; [exact H2 | split; [exact H3 | exact H4]]].
Defined.

(** ** Callbacks that write or throw *)

(** X22: [filter] copies the receiver as it is after the predicate has
    run, not as it was before.  When the predicate accepts the payload, the
    new option holds whatever the receiver holds by then; a predicate that
    empties the receiver and accepts makes [filter] return a [None]. *)
Theorem filter_copies_the_receiver_after_the_predicate :
  forall (h h1 : heap) (this : loc) (v : val) (i' : OptionInit) (p : val -> M bool),
    h !! this = Some (OptionObj (OptionSome v)) ->
    p v h = (Normal true, h1) ->
    h1 !! this = Some (OptionObj i') ->
    Option_filter this p h = (Normal (length h1), h1 ++ [OptionObj i']).
Proof.
  intros h h1 this v i' p H Hp H1.
  unfold Option_filter.
  rewrite (bind_Normal (Option_internal this) _ h (OptionSome v) h)
    by (unfold Option_internal; by rewrite H).
  rewrite (bind_Normal _ _ _ _ _ Hp).
  rewrite (bind_Normal (Option_internal this) _ h1 i' h1)
    by (unfold Option_internal; by rewrite H1).
  reflexivity.
Qed.

(** The predicate takes the value out of the receiver and answers [true]. *)
Lemma filter_copies_the_receiver_after_the_predicate_witness :
  let h := [OptionObj (OptionSome (VNum 1))] in
  let p := fun _ : val => (Option_take 0;;; ret true) in
  Option_filter 0 p h
  = (Normal 2, [OptionObj OptionNone; OptionObj (OptionSome (VNum 1)); OptionObj OptionNone]).
Proof.
  intros h p.
  exact (filter_copies_the_receiver_after_the_predicate h
           [OptionObj OptionNone; OptionObj (OptionSome (VNum 1))] 0 (VNum 1)
           OptionNone p eq_refl eq_refl eq_refl).
Defined.

(** X23: on a [None], [getOrInsertWith(f)] runs [f] once and stores what
    it returns.  When [f] throws, the call throws the same and writes
    nothing: the store is the one [f] left. *)
Theorem getOrInsertWith_stores_what_the_factory_returns :
  forall (h h1 : heap) (this : loc) (f : M val),
    h !! this = Some (OptionObj OptionNone) ->
    (forall e, f h = (Throw e, h1) ->
       Option_getOrInsertWith this f h = (Throw e, h1))
    /\ (forall v, f h = (Normal v, h1) -> this < length h1 ->
          Option_getOrInsertWith this f h
          = (Normal v, <[this := OptionObj (OptionSome v)]> h1)).
Proof.
  intros h h1 this f H. split.
  - intros e Hf. run. by rewrite Hf.
  - intros v Hf Hlt. run. rewrite Hf. cbv beta iota.
    by rewrite list_lookup_insert_eq.
Qed.

Lemma getOrInsertWith_stores_what_the_factory_returns_witness :
  let h := [OptionObj OptionNone] in
  Option_getOrInsertWith 0 (throw (Error "factory")) h = (Throw (Error "factory"), h)
  /\ Option_getOrInsertWith 0 (o <- Option_Some (VNum 1);; ret (VRef o)) h
     = (Normal (VRef 1), [OptionObj (OptionSome (VRef 1)); OptionObj (OptionSome (VNum 1))]).
Proof.
  intros h. split.
  - exact (proj1 (getOrInsertWith_stores_what_the_factory_returns h h 0
                    (throw (Error "factory")) eq_refl) (Error "factory") eq_refl).
  - refine (proj2 (getOrInsertWith_stores_what_the_factory_returns h
                     (h ++ [OptionObj (OptionSome (VNum 1))]) 0
                     (o <- Option_Some (VNum 1);; ret (VRef o)) eq_refl)
              (VRef 1) eq_refl _).
    apply Nat.lt_0_succ.
Defined.
